(** * BaIkhtiyar bilingual translation pipeline: a model of [main.py]

    The development embeds the four parts of [main.py] that carry the
    design of the pipeline:

    - [extract_text_from_json]  (format sniffing over a parsed JSON value),
    - [clean_response]          (the regular-expression sanitizer),
    - [translate_segment]       (prompt construction and the endpoint call),
    - the per-file loop of [main] (skip, extract, truncate, append).

    A Python [str] is represented by its UTF-8 encoding: a Rocq [string]
    is a sequence of bytes, and a character of the text is one to four of
    them.  The operations of the source that compare texts ([in],
    [startswith], [endswith], [replace], [sorted]) give on the encodings
    what they give on the texts, since no encoding of a character starts
    inside the encoding of another and the order of the encodings is the
    order of the code points.  The two operations that look at single
    characters are modelled on their encodings: [str.strip], which removes
    the 29 characters of [str.isspace] ([space_len]), and the
    case-insensitive comparison of [re], which takes four characters
    outside ASCII for the letters [i], [s] and [k] ([fold_rest]). *)

From Stdlib Require Import ZArith Strings.String Strings.Ascii Numbers.DecimalString.
From Stdlib Require Import Floats.SpecFloat Sorting.Sorted.
From stdpp Require Import base option list gmap strings.

Local Open Scope string_scope.

(** ** Text primitives of Python used by the source *)

Module Text.

Definition newline : ascii := ascii_of_nat 10.

Definition is_newline (c : ascii) : bool := Ascii.eqb c newline.

Definition byte_is (n : nat) (c : ascii) : bool := Nat.eqb (nat_of_ascii c) n.

(** [str.isspace] on an ASCII character: TAB, LF, VT, FF, CR, the four
    separators FS, GS, RS, US, and SPACE. *)
Definition is_space (c : ascii) : bool :=
  let n := nat_of_ascii c in
  (Nat.leb 9 n && Nat.leb n 13) || (Nat.leb 28 n && Nat.leb n 32).

(** The three-byte encodings of white space: U+1680 (E1 9A 80), U+2000 to
    U+200A (E2 80 80 to E2 80 8A), U+2028, U+2029 and U+202F (E2 80 A8,
    A9 and AF), U+205F (E2 81 9F) and U+3000 (E3 80 80). *)
Definition is_space3 (c1 c2 c3 : ascii) : bool :=
  (byte_is 225 c1 && byte_is 154 c2 && byte_is 128 c3)
  || (byte_is 226 c1 && byte_is 128 c2
      && ((Nat.leb 128 (nat_of_ascii c3) && Nat.leb (nat_of_ascii c3) 138)
          || byte_is 168 c3 || byte_is 169 c3 || byte_is 175 c3))
  || (byte_is 226 c1 && byte_is 129 c2 && byte_is 159 c3)
  || (byte_is 227 c1 && byte_is 128 c2 && byte_is 128 c3).

(** The number of bytes of the white-space character a text starts with,
    and 0 when it starts with none: an ASCII one, U+0085 (C2 85) or
    U+00A0 (C2 A0), or one of the three-byte ones. *)
Definition space_len (s : string) : nat :=
  match s with
  | EmptyString => 0
  | String c1 s1 =>
      if is_space c1 then 1
      else if byte_is 194 c1 then
        match s1 with
        | String c2 _ => if byte_is 133 c2 || byte_is 160 c2 then 2 else 0
        | EmptyString => 0
        end
      else if byte_is 225 c1 || byte_is 226 c1 || byte_is 227 c1 then
        match s1 with
        | String c2 (String c3 _) => if is_space3 c1 c2 c3 then 3 else 0
        | _ => 0
        end
      else 0
  end.

(** ASCII lower-casing, which is what [re.IGNORECASE] compares on for the
    letters of the patterns against an ASCII character. *)
Definition lower (c : ascii) : ascii :=
  let n := nat_of_ascii c in
  if Nat.leb 65 n && Nat.leb n 90 then ascii_of_nat (n + 32) else c.

Definition eq_nocase (a b : ascii) : bool := Ascii.eqb (lower a) (lower b).

(** What is left of a text after a character outside ASCII that
    [re.IGNORECASE] takes for the letter [c]: U+0130 (C4 B0) and U+0131
    (C4 B1) for [i], U+017F (C5 BF) for [s], U+212A (E2 84 AA) for [k]. *)
Definition fold_rest (c : ascii) (s : string) : option string :=
  match s with
  | String b1 (String b2 s2) =>
      if eq_nocase c "i" && byte_is 196 b1 && (byte_is 176 b2 || byte_is 177 b2)
      then Some s2
      else if eq_nocase c "s" && byte_is 197 b1 && byte_is 191 b2
      then Some s2
      else if eq_nocase c "k" && byte_is 226 b1 && byte_is 132 b2
      then match s2 with
           | String b3 s3 => if byte_is 170 b3 then Some s3 else None
           | EmptyString => None
           end
      else None
  | _ => None
  end.

Definition is_empty (s : string) : bool :=
  match s with EmptyString => true | String _ _ => false end.

(** [s.lstrip()]: the white-space characters at the start are passed
    over; [skip] counts the bytes of the character being passed over that
    are still to come. *)
Fixpoint lstrip_from (skip : nat) (s : string) : string :=
  match s with
  | EmptyString => EmptyString
  | String c s' =>
      match skip with
      | S k => lstrip_from k s'
      | O =>
          match space_len s with
          | S k => lstrip_from k s'
          | O => s
          end
      end
  end.

Definition lstrip (s : string) : string := lstrip_from 0 s.

(** [s.rstrip()]: the text is cut where what follows is white space
    only. *)
Fixpoint rstrip (s : string) : string :=
  match s with
  | EmptyString => EmptyString
  | String c s' =>
      if is_empty (lstrip s) then EmptyString else String c (rstrip s')
  end.

(** [s.strip()] *)
Definition strip (s : string) : string := rstrip (lstrip s).

(** [s.startswith(p)] *)
Fixpoint startswith (p s : string) : bool :=
  match p, s with
  | EmptyString, _ => true
  | String a p', String b s' => Ascii.eqb a b && startswith p' s'
  | String _ _, EmptyString => false
  end.

(** [p in s] for two strings: substring test. *)
Fixpoint contains (p s : string) : bool :=
  startswith p s ||
  match s with
  | EmptyString => false
  | String _ s' => contains p s'
  end.

(** [s.endswith(p)] *)
Fixpoint endswith (p s : string) : bool :=
  String.eqb p s ||
  match s with
  | EmptyString => false
  | String _ s' => endswith p s'
  end.

(** [s.replace(old, new)] for a non-empty [old]: every occurrence found
    scanning from the left, occurrences not overlapping.  [skip] counts the
    characters of the occurrence just replaced that are still to be passed
    over. *)
Fixpoint replace_from (old new : string) (skip : nat) (s : string) : string :=
  match s with
  | EmptyString => EmptyString
  | String c s' =>
      match skip with
      | S k => replace_from old new k s'
      | O =>
          if startswith old s
          then new ++ replace_from old new (String.length old - 1) s'
          else String c (replace_from old new 0 s')
      end
  end.

Definition replace (old new s : string) : string := replace_from old new 0 s.

(** Python's [sorted] on a list of strings: strings are compared by code
    point, which is the order of their encodings byte by byte, and two
    equal strings are the same string, so every sorting algorithm returns
    the same list; insertion sort is used here. *)
Fixpoint insert_sorted (k : string) (l : list string) : list string :=
  match l with
  | [] => [k]
  | x :: l' => if String.leb k x then k :: l else x :: insert_sorted k l'
  end.

Fixpoint sorted (l : list string) : list string :=
  match l with
  | [] => []
  | x :: l' => insert_sorted x (sorted l')
  end.

(** [str(n)] for an integer. *)
Definition str_of_Z (z : Z) : string := NilZero.string_of_int (Z.to_int z).

Definition str_of_nat (n : nat) : string := str_of_Z (Z.of_nat n).

End Text.

(** ** The fragment of [re] used by [clean_response]

    The eight patterns are sequences of literal characters, [^], [.*?] and
    [.*], compiled with [re.IGNORECASE | re.MULTILINE].  The matcher is the
    backtracking one of [re]: a lazy star tries the rest of the pattern
    before taking one more character, a greedy star takes characters first;
    [.] is any character but the line feed; [^] holds at the start of the
    text and after a line feed.  The stars go through the text byte by
    byte: what follows a star in the patterns starts with an ASCII
    character, which matches at the start of a character only. *)

Module Re.
Import Text.

Inductive atom : Type :=
  | Bol                    (* ^ under re.MULTILINE *)
  | Lit (c : ascii)        (* a literal ASCII character under re.IGNORECASE *)
  | LazyDots               (* .*? *)
  | GreedyDots.            (* .*  *)

Definition pattern := list atom.

Fixpoint lits (s : string) : pattern :=
  match s with
  | EmptyString => []
  | String c s' => Lit c :: lits s'
  end.

(** [match_here p bol s] matches [p] against a prefix of [s]; [bol] tells
    whether [s] starts at the beginning of a line.  The result is what is
    left of [s] after the match. *)
Fixpoint match_here (p : pattern) : bool -> string -> option string :=
  match p with
  | [] => fun _ s => Some s
  | Bol :: p' => fun bol s => if bol then match_here p' bol s else None
  | Lit c :: p' => fun _ s =>
      match s with
      | String x s' =>
          if eq_nocase c x then match_here p' (is_newline x) s'
          else match fold_rest c s with
               | Some r => match_here p' false r
               | None => None
               end
      | EmptyString => None
      end
  | LazyDots :: p' =>
      fix lazy (bol : bool) (s : string) {struct s} : option string :=
        match match_here p' bol s with
        | Some r => Some r
        | None =>
            match s with
            | String x s' => if is_newline x then None else lazy false s'
            | EmptyString => None
            end
        end
  | GreedyDots :: p' =>
      fix greedy (bol : bool) (s : string) {struct s} : option string :=
        match s with
        | String x s' =>
            if is_newline x then match_here p' bol s
            else match greedy false s' with
                 | Some r => Some r
                 | None => match_here p' bol s
                 end
        | EmptyString => match_here p' bol s
        end
  end.

(** [re.sub(p, "", s)]: the text is scanned from the left; where the
    pattern matches, the matched characters are dropped and the scan goes
    on after the match.  [skip] counts the matched characters still to be
    dropped.  None of the patterns of [clean_response] matches the empty
    string, so an empty match leaves the character in place. *)
Fixpoint sub_from (p : pattern) (skip : nat) (bol : bool) (s : string) : string :=
  match s with
  | EmptyString => EmptyString
  | String c s' =>
      match skip with
      | S k => sub_from p k (is_newline c) s'
      | O =>
          match match_here p bol s with
          | Some r =>
              match String.length s - String.length r with
              | O => String c (sub_from p 0 (is_newline c) s')
              | S k => sub_from p k (is_newline c) s'
              end
          | None => String c (sub_from p 0 (is_newline c) s')
          end
      end
  end.

Definition sub (p : pattern) (s : string) : string := sub_from p 0 true s.

(** [re.search(p, s) is not None], from a position whose line-start status
    is [bol]. *)
Fixpoint search_from (p : pattern) (bol : bool) (s : string) : bool :=
  match match_here p bol s with
  | Some _ => true
  | None =>
      match s with
      | EmptyString => false
      | String c s' => search_from p (is_newline c) s'
      end
  end.

Definition search (p : pattern) (s : string) : bool := search_from p true s.

End Re.

(** ** [clean_response] *)

Import Text Re.

Definition prefixes : list pattern :=
  [ (Bol :: lits "Here is the" ++ LazyDots :: lits "translation"
         ++ LazyDots :: lits ":")%list;
    (Bol :: lits "Sure, here is" ++ LazyDots :: lits ":")%list;
    (Bol :: lits "Here is the word-for-word" ++ LazyDots :: lits ":")%list;
    Bol :: lits "Translation:";
    (Bol :: lits "Here's the translation" ++ [LazyDots])%list ].

Definition suffixes : list pattern :=
  [ (lits "Note: The translation is word-for-word" ++ [GreedyDots])%list;
    (lits "Note: I have" ++ [GreedyDots])%list;
    (lits "Please let me know" ++ [GreedyDots])%list ].

(** One turn of either [for] loop: [text = re.sub(p, "", text).strip()]. *)
Definition remove (text : string) (p : pattern) : string := strip (sub p text).

(** [clean_response(text)] for a text that is a string. *)
Definition clean_response (text : string) : string :=
  if is_empty text then ""
  else foldl remove (foldl remove text prefixes) suffixes.

(** No pattern of [clean_response] matches anywhere in the text. *)
Definition already_clean (text : string) : Prop :=
  Forall (fun p => search p text = false) (prefixes ++ suffixes)%list.

(** The characters [str.isspace] holds for, in UTF-8: the ten of ASCII,
    U+0085, U+00A0, U+1680, U+2000 to U+200A, U+2028, U+2029, U+202F,
    U+205F and U+3000. *)
Definition bytes (l : list nat) : string :=
  foldr (fun n s => String (ascii_of_nat n) s) EmptyString l.

Definition white_space : list string :=
  map bytes
    [ [9]; [10]; [11]; [12]; [13]; [28]; [29]; [30]; [31]; [32];
      [194; 133]; [194; 160]; [225; 154; 128];
      [226; 128; 128]; [226; 128; 129]; [226; 128; 130]; [226; 128; 131];
      [226; 128; 132]; [226; 128; 133]; [226; 128; 134]; [226; 128; 135];
      [226; 128; 136]; [226; 128; 137]; [226; 128; 138];
      [226; 128; 168]; [226; 128; 169]; [226; 128; 175];
      [226; 129; 159]; [227; 128; 128] ].

(** ** Parsed JSON values and the Python operations applied to them *)

(** What [json.load] returns.  A [dict] is the list of its items in
    insertion order; its keys are strings and are distinct. *)
#[local] Set Warnings "-register-all".
Inductive json : Type :=
  | JNull
  | JBool (b : bool)
  | JInt (z : Z)
  | JFloat (f : spec_float)
  | JStr (s : string)
  | JList (l : list json)
  | JDict (kvs : list (string * json)).

(** The exceptions raised by the operations below; all of them derive from
    [Exception]. *)
Inductive exn : Type :=
  | OSError | UnicodeDecodeError | JSONDecodeError
  | TypeError | KeyError | AttributeError
  | HTTPError | ConnectionError.

Inductive result (A : Type) : Type :=
  | Ok (a : A)
  | Raise (e : exn).
Arguments Ok {A} a.
Arguments Raise {A} e.

#[global] Instance result_ret : MRet result := fun A a => Ok a.
#[global] Instance result_bind : MBind result := fun A B k r =>
  match r with Ok a => k a | Raise e => Raise e end.

Module Py.

Definition is_dict (v : json) : bool :=
  match v with JDict _ => true | _ => false end.

Definition is_list (v : json) : bool :=
  match v with JList _ => true | _ => false end.

Definition is_str (v : json) : bool :=
  match v with JStr _ => true | _ => false end.

(** [d[key]] on the items of a dict. *)
Fixpoint dict_get (key : string) (kvs : list (string * json)) : option json :=
  match kvs with
  | [] => None
  | (k, v) :: kvs' => if String.eqb key k then Some v else dict_get key kvs'
  end.

Definition is_the_str (key : string) (v : json) : bool :=
  match v with JStr s => String.eqb key s | _ => false end.

(** [key in v] for a string [key]: key membership in a dict, substring test
    in a string, element membership in a list, [TypeError] otherwise. *)
Definition contains (key : string) (v : json) : result bool :=
  match v with
  | JDict kvs => Ok (bool_decide (is_Some (dict_get key kvs)))
  | JStr s => Ok (Text.contains key s)
  | JList l => Ok (existsb (is_the_str key) l)
  | _ => Raise TypeError
  end.

(** [v[key]] for a string [key]. *)
Definition getitem (v : json) (key : string) : result json :=
  match v with
  | JDict kvs =>
      match dict_get key kvs with Some x => Ok x | None => Raise KeyError end
  | _ => Raise TypeError
  end.

(** [v.get(key, default)] *)
Definition get (v : json) (key : string) (default : json) : result json :=
  match v with
  | JDict kvs =>
      Ok (match dict_get key kvs with Some x => x | None => default end)
  | _ => Raise AttributeError
  end.

(** The characters of a text, each as a text of its own: a byte from
    80 to BF continues the character before it. *)
Fixpoint char_texts (s : string) : list string :=
  match s with
  | EmptyString => []
  | String c s' =>
      match char_texts s' with
      | String d h :: rest =>
          if Nat.leb 128 (nat_of_ascii d) && Nat.leb (nat_of_ascii d) 191
          then String c (String d h) :: rest
          else String c EmptyString :: String d h :: rest
      | rest => String c EmptyString :: rest
      end
  end.

Definition chars (s : string) : list json := map JStr (char_texts s).

(** The elements [for item in v] goes through. *)
Definition iter (v : json) : result (list json) :=
  match v with
  | JList l => Ok l
  | JDict kvs => Ok (map (fun kv => JStr (fst kv)) kvs)
  | JStr s => Ok (chars s)
  | _ => Raise TypeError
  end.

(** [bool(v)] *)
Definition truthy (v : json) : bool :=
  match v with
  | JNull => false
  | JBool b => b
  | JInt z => negb (Z.eqb z 0)
  | JFloat f => match f with S754_zero _ => false | _ => true end
  | JStr s => negb (is_empty s)
  | JList l => match l with [] => false | _ => true end
  | JDict kvs => match kvs with [] => false | _ => true end
  end.

End Py.

(** ** The endpoint and the file store *)

(** The JSON body posted to the endpoint. *)
Record payload : Type := Payload {
  model : string;
  prompt : string;
  stream : bool
}.

(** What [requests.post] gives: an exception, or a response with its
    status code and its body, [None] when the body is not JSON. *)
Inductive http_reply : Type :=
  | NoReply
  | Reply (status : Z) (body : option json).

(** What opening and parsing an input file gives. *)
Inductive file : Type :=
  | Unreadable             (* open raises OSError *)
  | Undecodable            (* the bytes are not UTF-8 *)
  | Malformed              (* json.load raises JSONDecodeError *)
  | Parsed (data : json).

Definition load (f : file) : result json :=
  match f with
  | Unreadable => Raise OSError
  | Undecodable => Raise UnicodeDecodeError
  | Malformed => Raise JSONDecodeError
  | Parsed data => Ok data
  end.

(** A model profile of [config.json]. *)
Record profile : Type := Profile {
  name : string;
  base_model : string;
  file_suffix : string
}.

(** An endpoint that answers from a script, one reply per call, and stops
    answering when the script is used up. *)
Definition scripted_post (script : list http_reply) (url : string) (p : payload)
  : http_reply * list http_reply :=
  match script with
  | [] => (NoReply, [])
  | r :: script' => (r, script')
  end.

(** A stand-in for [repr] that prints every value as [?]. *)
Definition opaque_repr (v : json) : string := "?".

(** ** Inputs used in the examples *)

(** [{"document": {"pages": [{"content": "A"}, 5]}}] *)
Definition pages_with_a_number : json :=
  JDict [("document",
          JDict [("pages", JList [JDict [("content", JStr "A")]; JInt 5])])].

(** [{"document": 5, "page_1": "A"}] *)
Definition flat_with_a_document_number : json :=
  JDict [("document", JInt 5); ("page_1", JStr "A")].

(** [{"page_2": "B", "page_1": "A", "total_pages": 2}] *)
Definition flat_pages : json :=
  JDict [("page_2", JStr "B"); ("page_1", JStr "A"); ("total_pages", JInt 2)].

(** ** The menu of [main]

    [while True: choice = input(...).strip(); if choice in models: break],
    over the lines the operator types.  [input] raises [EOFError] when
    there is no line left, and [choice in models] raises when [models] is
    no container. *)

Inductive selection : Type :=
  | Selected (choice : string)
  | EndOfInput
  | SelectionError (e : exn).

Fixpoint select_model (models : json) (inputs : list string) : selection :=
  match inputs with
  | [] => EndOfInput
  | line :: rest =>
      match Py.contains (strip line) models with
      | Raise e => SelectionError e
      | Ok true => Selected (strip line)
      | Ok false => select_model models rest
      end
  end.

(** Numbers, booleans and [None]: the values that are no containers. *)
Definition is_scalar (v : json) : bool :=
  match v with
  | JNull | JBool _ | JInt _ | JFloat _ => true
  | _ => false
  end.

(** ** The pipeline

    Two things the source uses are not part of it and are taken as
    parameters: [repr], which [str] falls back on for floats, lists and
    dicts, and the inference endpoint behind [requests.post], a state
    machine answering each call with a reply. *)

Section Pipeline.

Variable py_repr : json -> string.
Variable server : Type.
Variable post : server -> string -> payload -> http_reply * server.

(** [str(v)] *)
Definition py_str (v : json) : string :=
  match v with
  | JStr s => s
  | JNull => "None"
  | JBool true => "True"
  | JBool false => "False"
  | JInt z => str_of_Z z
  | _ => py_repr v
  end.

(** *** [extract_text_from_json] *)

(** Case A, the loop over [pages]. *)
Fixpoint pages_loop (items : list json) (text_segments : list string)
  : result (list string) :=
  match items with
  | [] => Ok text_segments
  | item :: rest =>
      has ← Py.contains "content" item;
      if has : bool
      then content ← Py.getitem item "content";
           pages_loop rest (text_segments ++ [py_str content])%list
      else pages_loop rest text_segments
  end.

(** Case B, the loop over [data['content']]. *)
Fixpoint content_loop (items : list json) (text_segments : list string)
  : result (list string) :=
  match items with
  | [] => Ok text_segments
  | item :: rest =>
      has ← (if Py.is_dict item then Py.contains "content" item else Ok false);
      if has : bool
      then content ← Py.getitem item "content";
           content_loop rest (text_segments ++ [py_str content])%list
      else match item with
           | JStr s => content_loop rest (text_segments ++ [s])%list
           | _ => content_loop rest text_segments
           end
  end.

Definition reserved (key : string) : bool :=
  String.eqb key "total_pages" || String.eqb key "content"
  || String.eqb key "document".

(** Case C, the loop over the sorted keys. *)
Fixpoint keys_loop (data : json) (keys : list string) (text_segments : list string)
  : result (list string) :=
  match keys with
  | [] => Ok text_segments
  | key :: rest =>
      if reserved key then keys_loop data rest text_segments
      else value ← Py.getitem data key;
           keys_loop data rest (text_segments ++ [py_str value])%list
  end.

(** [isinstance(data, dict) and 'document' in data and
     'pages' in data['document']] *)
Definition is_nested_document (data : json) : result bool :=
  if Py.is_dict data
  then has ← Py.contains "document" data;
       if has : bool
       then document ← Py.getitem data "document";
            Py.contains "pages" document
       else Ok false
  else Ok false.

(** [isinstance(data, dict) and 'content' in data and
     isinstance(data['content'], list)] *)
Definition is_content_list (data : json) : result bool :=
  if Py.is_dict data
  then has ← Py.contains "content" data;
       if has : bool
       then content ← Py.getitem data "content";
            Ok (Py.is_list content)
       else Ok false
  else Ok false.

Definition dict_keys (data : json) : list string :=
  match data with JDict kvs => map fst kvs | _ => [] end.

(** The statements under [try], from the parsed value on. *)
Definition extract_segments (data : json) : result (list string) :=
  a ← is_nested_document data;
  if a : bool
  then document ← Py.getitem data "document";
       pages ← Py.getitem document "pages";
       items ← Py.iter pages;
       pages_loop items []
  else
    b ← is_content_list data;
    if b : bool
    then content ← Py.getitem data "content";
         items ← Py.iter content;
         content_loop items []
    else if Py.is_dict data
    then keys_loop data (sorted (dict_keys data)) []
    else match data with
         | JList items => Ok (map py_str items)
         | _ => Ok [py_str data]
         end.

(** The whole [try] block: open, parse, extract. *)
Definition try_extract (f : file) : result (list string) :=
  data ← load f; extract_segments data.

(** [extract_text_from_json]: both [except] clauses return the empty list,
    and between them they catch every exception of the model. *)
Definition extract_text_from_json (f : file) : list string :=
  match try_extract f with
  | Ok text_segments => text_segments
  | Raise JSONDecodeError => []
  | Raise _ => []
  end.

(** *** [extract_text_from_json] with its console output

    The function prints: a line of information in the first two cases,
    under [try], and a diagnostic in each handler, where nothing catches
    what [print] raises.  [console] tells what [print] does with a line,
    and [describe] is [str(e)]. *)




(** *** [translate_segment] *)

Definition forced_prompt (text model_name : string) : string :=
  if Text.contains "GTE" model_name
  then "Translate the following German text into English. "
       ++ "Provide a complete, accurate translation. "
       ++ "Do NOT summarize. "
       ++ "Do NOT skip any details. "
       ++ "Output ONLY the translated text:" ++ String newline (String newline "")
       ++ text
  else if Text.contains "GTU" model_name
  then "Translate the following German text into Urdu. "
       ++ "Provide a complete, accurate translation. "
       ++ "Do NOT summarize. "
       ++ "Output ONLY the translated text:" ++ String newline (String newline "")
       ++ text
  else text.

Definition make_payload (text model_name : string) : payload :=
  {| model := model_name; prompt := forced_prompt text model_name; stream := false |}.

(** [clean_response] applied to whatever [.get('response', '')] returned:
    a falsy value gives [""], a non-empty string is cleaned, and [re.sub]
    raises [TypeError] on anything else. *)
Definition clean_response_dyn (text : json) : result string :=
  if negb (Py.truthy text) then Ok ""
  else match text with
       | JStr s => Ok (clean_response s)
       | _ => Raise TypeError
       end.

(** The statements under [try] once [requests.post] has answered:
    [raise_for_status], [response.json()], [.get], [clean_response]. *)
Definition read_reply (r : http_reply) : result string :=
  match r with
  | NoReply => Raise ConnectionError
  | Reply status body =>
      if Z.leb 400 status && Z.ltb status 600 then Raise HTTPError
      else match body with
           | None => Raise JSONDecodeError
           | Some j =>
               text ← Py.get j "response" (JStr "");
               clean_response_dyn text
           end
  end.

(** [translate_segment]: the sanitized text, or [None] when anything under
    [try] raised. *)
Definition translate_segment (text model_name url : string) (s : server)
  : option string * server :=
  let '(r, s') := post s url (make_payload text model_name) in
  (match read_reply r with Ok t => Some t | Raise _ => None end, s').

(** *** The loop of [main] *)

Inductive event : Type :=
  | EvExtract (filename : string)
  | EvPost (url : string) (p : payload).

(** The result folder, the endpoint, and the calls made so far. *)
Record world : Type := World {
  out_files : gmap string string;
  srv : server;
  log : list event
}.

Definition record (e : event) (w : world) : world :=
  {| out_files := out_files w; srv := srv w; log := (log w ++ [e])%list |}.

(** [open(path, 'w').write("")] *)
Definition truncate (path : string) (w : world) : world :=
  {| out_files := <[path := ""]> (out_files w); srv := srv w; log := log w |}.

(** [open(path, 'a').write(text)] *)
Definition append (path text : string) (w : world) : world :=
  {| out_files := <[path := default "" (out_files w !! path) ++ text]> (out_files w);
     srv := srv w; log := log w |}.

(** The world once [translate_segment] has returned for a segment: the
    endpoint has moved on, the call is on record, the files are as they
    were. *)
Definition after_call (segment model_name url : string) (w : world) : world :=
  {| out_files := out_files w;
     srv := snd (translate_segment segment model_name url (srv w));
     log := (log w ++ [EvPost url (make_payload segment model_name)])%list |}.

(** [translate_segment] as a step of the world. *)
Definition call_translate (segment model_name url : string) (w : world)
  : option string * world :=
  let '(t, s') := translate_segment segment model_name url (srv w) in
  (t, {| out_files := out_files w; srv := s';
         log := (log w ++ [EvPost url (make_payload segment model_name)])%list |}).

(** [f"--- Page {i+1} ---\n{translation}\n\n"], with [n] for [i+1]. *)
Definition page_block (n : nat) (translation : string) : string :=
  "--- Page " ++ str_of_nat n ++ " ---" ++ String newline ""
  ++ translation ++ String newline (String newline "").

(** [for i, segment in enumerate(segments)], from index [i] on. *)
Fixpoint translate_pages (model_name url path : string)
    (segments : list string) (i : nat) (w : world) : world :=
  match segments with
  | [] => w
  | segment :: rest =>
      let '(translation, w1) := call_translate segment model_name url w in
      match translation with
      | Some t =>
          if is_empty t
          then translate_pages model_name url path rest (S i) w1
          else translate_pages model_name url path rest (S i)
                 (append path (page_block (S i) t) w1)
      | None => w1
      end
  end.

Definition output_filename (filename suffix : string) : string :=
  Text.replace ".json" (suffix ++ ".txt") filename.

(** One turn of [for filename in files]; an entry of the data folder is a
    file name with what reading that file gives. *)
Definition process_file (selected_model : profile) (url : string)
    (w : world) (entry : string * file) : world :=
  let output_path := output_filename (fst entry) (file_suffix selected_model) in
  if bool_decide (is_Some (out_files w !! output_path)) then w
  else
    let w1 := record (EvExtract (fst entry)) w in
    match extract_text_from_json (snd entry) with
    | [] => w1
    | segments =>
        translate_pages (base_model selected_model) url output_path
          segments 0 (truncate output_path w1)
    end.

(** [main] from the listing of the data folder on. *)
Definition main_loop (selected_model : profile) (url : string)
    (data_folder : list (string * file)) (w : world) : world :=
  let files := filter (fun entry => Is_true (endswith ".json" (fst entry))) data_folder in
  foldl (process_file selected_model url) w files.

(** *** Auxiliary notions used to state the properties *)

(** The translations of a list of segments, one call after the other. *)
Fixpoint translations (model_name url : string) (segments : list string)
    (s : server) : list (option string) * server :=
  match segments with
  | [] => ([], s)
  | segment :: rest =>
      let '(t, s1) := translate_segment segment model_name url s in
      let '(ts, s2) := translations model_name url rest s1 in
      (t :: ts, s2)
  end.

(** The page blocks of consecutive successful translations, numbered from
    [n]. *)
Fixpoint page_blocks (n : nat) (ts : list string) : string :=
  match ts with
  | [] => ""
  | t :: ts' => page_block n t ++ page_blocks (S n) ts'
  end.

Definition posts (model_name url : string) (segments : list string) : list event :=
  map (fun segment => EvPost url (make_payload segment model_name)) segments.

Definition is_post (e : event) : bool :=
  match e with EvPost _ _ => true | EvExtract _ => false end.

(** The results the loop gets to see: those before the first [None]. *)
Fixpoint answered (results : list (option string)) : list string :=
  match results with
  | Some t :: rest => t :: answered rest
  | _ => []
  end.

(** What the loop appends for the text at position [k] (counted from 0) of
    the segment sequence: the block numbered [k + 1], or nothing for the
    empty text. *)
Definition block_at (k : nat) (t : string) : string :=
  if is_empty t then "" else page_block (S k) t.

(** What the loop writes for the results of the calls, position by
    position. *)
Definition written (first : nat) (results : list (option string)) : string :=
  String.concat "" (imap (fun k => block_at (first + k)) (answered results)).

(** The segments the nested-document case draws from a list of pages whose
    elements are all mappings. *)
Definition page_contents (items : list json) : list string :=
  omap (fun item =>
          match item with
          | JDict kvs => py_str <$> Py.dict_get "content" kvs
          | _ => None
          end) items.

(** The segments the flat-mapping case draws from the items of a dict. *)
Definition flat_values (kvs : list (string * json)) : list string :=
  omap (fun key => py_str <$> Py.dict_get key kvs)
       (filter (fun key => reserved key = false) (sorted (map fst kvs))).

(** The segments the content-list case draws from the elements of
    [data['content']]: the content of a mapping that has one, a string as
    it is, nothing for anything else. *)
Definition content_segments (items : list json) : list string :=
  omap (fun item =>
          match item with
          | JDict kvs => py_str <$> Py.dict_get "content" kvs
          | JStr s => Some s
          | _ => None
          end) items.


(** ** Properties of the segment loop *)

Lemma str_app_cons (a : ascii) (s t : string) : String a s ++ t = String a (s ++ t).
Proof. reflexivity. Qed.

Lemma str_app_nil_l (s : string) : "" ++ s = s.
Proof. reflexivity. Qed.

Lemma str_app_nil_r (s : string) : s ++ "" = s.
Proof. induction s as [|a s IH]; [done|]. by rewrite str_app_cons, IH. Qed.

Lemma str_app_assoc (s t u : string) : (s ++ t) ++ u = s ++ t ++ u.
Proof. induction s as [|a s IH]; [done|]. by rewrite !str_app_cons, IH. Qed.

Lemma is_empty_false (t : string) : t ≠ "" → is_empty t = false.
Proof. by destruct t. Qed.

Section loop.

Variables model_name url path : string.

Lemma call_translate_eq segment w :
  call_translate segment model_name url w
  = (fst (translate_segment segment model_name url (srv w)), after_call segment model_name url w).
Proof.
  unfold call_translate, after_call.
  by destruct (translate_segment segment model_name url (srv w)).
Qed.

Lemma translate_pages_cons segment rest i w :
  translate_pages model_name url path (segment :: rest) i w
  = match fst (translate_segment segment model_name url (srv w)) with
    | Some t =>
        if is_empty t
        then translate_pages model_name url path rest (S i) (after_call segment model_name url w)
        else translate_pages model_name url path rest (S i)
               (append path (page_block (S i) t) (after_call segment model_name url w))
    | None => after_call segment model_name url w
    end.
Proof. simpl. by rewrite call_translate_eq. Qed.

Lemma translations_cons segment rest s :
  translations model_name url (segment :: rest) s
  = (fst (translate_segment segment model_name url s)
       :: fst (translations model_name url rest
                 (snd (translate_segment segment model_name url s))),
     snd (translations model_name url rest
            (snd (translate_segment segment model_name url s)))).
Proof.
  simpl. destruct (translate_segment segment model_name url s) as [t s1]. simpl.
  by destruct (translations model_name url rest s1).
Qed.

(** The loop only ever adds to the result folder. *)
Lemma translate_pages_keeps segments : ∀ i w k,
  is_Some (out_files w !! k) →
  is_Some (out_files (translate_pages model_name url path segments i w) !! k).
Proof.
  induction segments as [|segment rest IH]; intros i w k Hk; [done|].
  rewrite translate_pages_cons.
  destruct (fst (translate_segment segment model_name url (srv w))) as [t|];
    [|done].
  destruct (is_empty t); apply IH; simpl; [done|].
  destruct (decide (path = k)) as [->|Hne].
  - rewrite lookup_insert_eq. eauto.
  - by rewrite lookup_insert_ne.
Qed.

(** A run of successful, non-empty translations: the loop has appended
    their blocks, made their calls, and goes on with the next segment. *)
Lemma translate_pages_successes pre : ∀ rest i w ts s1 c,
  out_files w !! path = Some c →
  translations model_name url pre (srv w) = (Some <$> ts, s1) →
  Forall (fun t => t ≠ "") ts →
  translate_pages model_name url path (pre ++ rest)%list i w
  = translate_pages model_name url path rest (length pre + i)
      {| out_files := <[path := c ++ page_blocks (S i) ts]> (out_files w);
         srv := s1;
         log := (log w ++ posts model_name url pre)%list |}.
Proof.
  induction pre as [|segment pre IH]; intros rest i w ts s1 c Hc Htr Hne.
  - simpl in Htr. destruct ts; simplify_eq/=.
    rewrite str_app_nil_r, insert_id, app_nil_r by done. by destruct w.
  - rewrite translations_cons in Htr.
    destruct ts as [|t ts]; [done|].
    injection Htr as Ht Hts Hs1.
    apply Forall_cons in Hne as [Hnt Hne].
    rewrite <- app_comm_cons, translate_pages_cons, Ht, (is_empty_false t Hnt).
    rewrite (IH rest (S i) (append path (page_block (S i) t) (after_call segment model_name url w))
               ts s1 (c ++ page_block (S i) t)).
    + simpl. rewrite Hc. simpl. rewrite insert_insert_eq, str_app_assoc.
      rewrite <- app_assoc. simpl. by rewrite Nat.add_succ_r.
    + simpl. rewrite Hc. by rewrite lookup_insert_eq.
    + simpl. destruct (translations model_name url pre _) as [rs s2].
      simpl in Hts, Hs1. by rewrite Hts, Hs1.
    + done.
Qed.

Lemma concat_cons (x : string) (l : list string) :
  String.concat "" (x :: l) = x ++ String.concat "" l.
Proof. destruct l; simpl; [by rewrite str_app_nil_r | done]. Qed.

Lemma written_cons_none first rest : written first (None :: rest) = "".
Proof. done. Qed.

Lemma written_cons_some first t rest :
  written first (Some t :: rest) = block_at first t ++ written (S first) rest.
Proof.
  unfold written. simpl answered. rewrite imap_cons, concat_cons.
  rewrite Nat.add_0_r. f_equal. f_equal. apply imap_ext. intros k x _. simpl.
  by rewrite Nat.add_succ_r.
Qed.

(** Whatever the endpoint answers, the file ends up with its old content
    followed by what [written] tells, position by position. *)
Lemma translate_pages_written segments : ∀ i w c,
  out_files w !! path = Some c →
  out_files (translate_pages model_name url path segments i w) !! path
  = Some (c ++ written i (fst (translations model_name url segments (srv w)))).
Proof.
  induction segments as [|segment rest IH]; intros i w c Hc.
  - simpl. by rewrite str_app_nil_r.
  - rewrite translate_pages_cons, translations_cons. simpl fst.
    destruct (fst (translate_segment segment model_name url (srv w))) as [t|].
    + rewrite written_cons_some. unfold block_at.
      destruct (is_empty t).
      * by rewrite (IH (S i) (after_call segment model_name url w) c).
      * rewrite (IH (S i) _ (c ++ page_block (S i) t)).
        -- by rewrite str_app_assoc.
        -- simpl. rewrite Hc. by rewrite lookup_insert_eq.
    + by rewrite written_cons_none, str_app_nil_r.
Qed.

End loop.

(** *** The text of a page block

    [str(i+1)] is the decimal numeral of the number, and the block is the
    header line, the translation and an empty line. *)

Lemma str_of_nat_decimal (n : nat) :
  str_of_nat n = NilZero.string_of_uint (N.to_uint (N.of_nat n)).
Proof. by destruct n. Qed.

Lemma page_block_text (n : nat) (t : string) :
  page_block n t
  = "--- Page " ++ NilZero.string_of_uint (N.to_uint (N.of_nat n))
    ++ " ---
" ++ t ++ "

".
Proof. unfold page_block. by rewrite str_of_nat_decimal. Qed.

Lemma page_blocks_text (ts : list string) : ∀ n,
  page_blocks n ts
  = String.concat ""
      (imap (fun k t =>
               "--- Page " ++ NilZero.string_of_uint (N.to_uint (N.of_nat (n + k)))
               ++ " ---
" ++ t ++ "

") ts).
Proof.
  induction ts as [|t ts IH]; intros n; [done|].
  simpl page_blocks. rewrite imap_cons, concat_cons, page_block_text, IH.
  rewrite Nat.add_0_r. f_equal. f_equal. apply imap_ext. intros k x _. simpl.
  by rewrite Nat.add_succ_r.
Qed.

Lemma page_blocks_from_one (ts : list string) :
  page_blocks 1 ts
  = String.concat ""
      (imap (fun k t =>
               "--- Page " ++ NilZero.string_of_uint (N.to_uint (N.of_nat (S k)))
               ++ " ---
" ++ t ++ "

") ts).
Proof. apply (page_blocks_text ts 1). Qed.

Lemma block_at_text (k : nat) (t : string) :
  block_at k t
  = match t with
    | EmptyString => ""
    | _ => "--- Page " ++ NilZero.string_of_uint (N.to_uint (N.of_nat (S k)))
           ++ " ---
" ++ t ++ "

"
    end.
Proof. unfold block_at. destruct t; [done|]. simpl is_empty. by rewrite page_block_text. Qed.

(** ** Properties of the driver *)

(** C3 (abort discrimination).  When the translation of a segment is
    [None], the loop stops there: the world it returns is the one right
    after that call, with no call made for the remaining segments.  When it
    is the empty string, the loop goes on with the next segment.  In both
    cases the result folder is as it was before the segment, so no page
    block was appended for it. *)
Theorem abort_discrimination (model_name url path segment : string)
    (rest : list string) (i : nat) (w : world) :
  let translation := fst (translate_segment segment model_name url (srv w)) in
  (translation = None →
     translate_pages model_name url path (segment :: rest) i w
     = after_call segment model_name url w)
  ∧ (translation = Some "" →
     translate_pages model_name url path (segment :: rest) i w
     = translate_pages model_name url path rest (S i)
         (after_call segment model_name url w))
  ∧ out_files (after_call segment model_name url w) = out_files w.
Proof.
  intros translation. rewrite translate_pages_cons. fold translation.
  split; [|split]; [intros -> | intros -> |]; done.
Qed.

(** C2 (partial-failure durability).  A file without output whose
    extraction yields the segments [pre ++ segment :: rest], where the
    translations of [pre] all succeed with non-empty texts [ts] and the
    translation of [segment] is [None]: afterwards the output file holds
    exactly the blocks of [ts], the block of the text at position [k]
    (counted from 0) being the line [--- Page k+1 ---], the text and an
    empty line; the other files are untouched, and the calls made are
    those for [pre] and for [segment], none for [rest]. *)
Theorem partial_failure_durability (selected_model : profile) (url filename : string)
    (f : file) (w : world) (pre rest : list string) (segment : string)
    (ts : list string) (s1 s2 : server) :
  out_files w !! output_filename filename (file_suffix selected_model) = None →
  extract_text_from_json f = (pre ++ segment :: rest)%list →
  translations (base_model selected_model) url pre (srv w) = (Some <$> ts, s1) →
  Forall (fun t => t ≠ "") ts →
  translate_segment segment (base_model selected_model) url s1 = (None, s2) →
  process_file selected_model url w (filename, f)
  = {| out_files :=
         <[output_filename filename (file_suffix selected_model) :=
             String.concat ""
               (imap (fun k t =>
                        "--- Page " ++ NilZero.string_of_uint (N.to_uint (N.of_nat (S k)))
                        ++ " ---
" ++ t ++ "

") ts)]>
           (out_files w);
       srv := s2;
       log := (log w ++ EvExtract filename
                 :: posts (base_model selected_model) url (pre ++ [segment]))%list |}.
Proof.
  intros Hnew Hsegs Htr Hne Hfail.
  rewrite <- page_blocks_from_one.
  unfold process_file. simpl fst. simpl snd.
  rewrite Hnew, bool_decide_eq_false_2 by (by intros [? ?]).
  rewrite Hsegs. clear Hsegs.
  destruct (pre ++ segment :: rest)%list as [|x l] eqn:E;
    [by destruct pre|rewrite <- E; clear E x l].
  erewrite translate_pages_successes; [| |exact Htr|exact Hne].
  2: { simpl. apply lookup_insert_eq. }
  rewrite translate_pages_cons. unfold after_call. simpl srv. rewrite Hfail. simpl.
  rewrite insert_insert_eq. f_equal.
  unfold posts. rewrite map_app. simpl. by rewrite <- !app_assoc.
Qed.

(** C10 (page numbers follow positions, with gaps).  The loop leaves in
    the output file its old content followed by one block per answered,
    non-empty translation: for the text at position [k] (counted from 0)
    of the segment sequence, the line [--- Page k+1 ---], the text and
    an empty line.  An empty translation leaves no block and does not
    shift the numbers after it, so that three segments answered [x], [""]
    and [y] give the pages 1 and 3. *)
Theorem page_numbers_follow_positions (model_name url path : string)
    (segments : list string) (w : world) (c : string) :
  out_files w !! path = Some c →
  out_files (translate_pages model_name url path segments 0 w) !! path
  = Some (c ++ String.concat ""
                 (imap (fun k t =>
                          match t with
                          | EmptyString => ""
                          | _ => "--- Page "
                                 ++ NilZero.string_of_uint (N.to_uint (N.of_nat (S k)))
                                 ++ " ---
" ++ t ++ "

"
                          end)
                    (answered (fst (translations model_name url segments (srv w))))))
  ∧ ∀ x y : string,
      x ≠ "" → y ≠ "" →
      fst (translations model_name url segments (srv w)) = [Some x; Some ""; Some y] →
      out_files (translate_pages model_name url path segments 0 w) !! path
      = Some (c ++ "--- Page 1 ---
" ++ x ++ "

--- Page 3 ---
" ++ y ++ "

").
Proof.
  intros Hc.
  pose proof (translate_pages_written model_name url path segments 0 w c Hc) as H.
  split.
  - rewrite H. unfold written. do 3 f_equal. apply imap_ext.
    intros k t _. apply block_at_text.
  - intros x y Hx Hy Hres. rewrite H, Hres. unfold written. simpl.
    unfold block_at. rewrite (is_empty_false x Hx), (is_empty_false y Hy). simpl.
    rewrite !page_block_text, !str_app_nil_l. do 2 f_equal.
    rewrite !str_app_assoc. reflexivity.
Qed.

(** *** Resumability *)

(** A file is settled in a result folder when its output is there or its
    extraction yields nothing: a run then makes no call for it. *)
Lemma process_file_keeps selected_model url w entry k :
  is_Some (out_files w !! k) →
  is_Some (out_files (process_file selected_model url w entry) !! k).
Proof.
  intros Hk. unfold process_file. case_bool_decide; [done|].
  destruct (extract_text_from_json entry.2); [done|].
  apply translate_pages_keeps. simpl.
  destruct (decide (output_filename entry.1 (file_suffix selected_model) = k))
    as [->|Hne].
  - rewrite lookup_insert_eq. eauto.
  - by rewrite lookup_insert_ne.
Qed.

Lemma main_keeps selected_model url files : ∀ w k,
  is_Some (out_files w !! k) →
  is_Some (out_files (foldl (process_file selected_model url) w files) !! k).
Proof.
  induction files as [|entry files IH]; intros w k Hk; [done|].
  simpl. by apply IH, process_file_keeps.
Qed.

Lemma process_file_settles selected_model url w entry :
  is_Some (out_files (process_file selected_model url w entry)
             !! output_filename entry.1 (file_suffix selected_model))
  ∨ extract_text_from_json entry.2 = [].
Proof.
  unfold process_file. case_bool_decide; [by left|].
  destruct (extract_text_from_json entry.2); [by right|left].
  apply translate_pages_keeps. simpl. rewrite lookup_insert_eq. eauto.
Qed.

Lemma main_settles selected_model url files : ∀ w,
  Forall (fun entry =>
            is_Some (out_files (foldl (process_file selected_model url) w files)
                       !! output_filename entry.1 (file_suffix selected_model))
            ∨ extract_text_from_json entry.2 = []) files.
Proof.
  induction files as [|entry files IH]; intros w; [done|].
  simpl. constructor; [|apply IH].
  destruct (process_file_settles selected_model url w entry) as [H|H];
    [left; by apply main_keeps|by right].
Qed.

Lemma settled_run selected_model url files : ∀ w,
  Forall (fun entry =>
            is_Some (out_files w
                       !! output_filename entry.1 (file_suffix selected_model))
            ∨ extract_text_from_json entry.2 = []) files →
  ∃ evs,
    foldl (process_file selected_model url) w files
    = {| out_files := out_files w; srv := srv w; log := (log w ++ evs)%list |}
    ∧ Forall (fun ev => is_post ev = false) evs.
Proof.
  induction files as [|entry files IH]; intros w Hall.
  - exists []. rewrite app_nil_r. by destruct w.
  - apply Forall_cons in Hall as [Hentry Hall]. simpl.
    assert (∃ evs, process_file selected_model url w entry
                   = {| out_files := out_files w; srv := srv w;
                        log := (log w ++ evs)%list |}
                   ∧ Forall (fun ev => is_post ev = false) evs)
      as (evs & -> & Hevs).
    { unfold process_file. case_bool_decide as Hout.
      - exists []. rewrite app_nil_r. by destruct w.
      - destruct Hentry as [?| ->]; [done|].
        exists [EvExtract entry.1]. split; [done|]. by constructor. }
    destruct (IH {| out_files := out_files w; srv := srv w;
                    log := (log w ++ evs)%list |} Hall) as (evs' & -> & Hevs').
    simpl.
    exists (evs ++ evs')%list. rewrite <- app_assoc. split; [done|].
    by apply Forall_app.
Qed.

(** C5 (resumability).  After one run over a data folder, a second run
    over the same folder with the same profile leaves the result folder
    and the endpoint as they were and makes no call to the endpoint: the
    events it adds are no posts.  And a file whose output exists is
    skipped: it is neither extracted nor translated, the world is left as
    it is. *)
Theorem resumability (selected_model : profile) (url : string)
    (data_folder : list (string * file)) (w : world) :
  let w1 := main_loop selected_model url data_folder w in
  let w2 := main_loop selected_model url data_folder w1 in
  (∃ evs, w2 = {| out_files := out_files w1; srv := srv w1;
                  log := (log w1 ++ evs)%list |}
          ∧ Forall (fun ev => is_post ev = false) evs)
  ∧ ∀ (w' : world) (entry : string * file),
      is_Some (out_files w' !! output_filename entry.1 (file_suffix selected_model)) →
      process_file selected_model url w' entry = w'.
Proof.
  intros w1 w2. split.
  - apply settled_run, main_settles.
  - intros w' entry Hout. unfold process_file. by rewrite bool_decide_eq_true_2.
Qed.

(** *** The extractor *)



Lemma pages_loop_mappings items : ∀ text_segments,
  Forall (fun item => Py.is_dict item = true) items →
  pages_loop items text_segments = Ok (text_segments ++ page_contents items)%list.
Proof.
  induction items as [|item items IH]; intros acc Hall.
  - simpl. by rewrite app_nil_r.
  - apply Forall_cons in Hall as [Hitem Hall].
    destruct item as [| | | | |?|kvs]; try discriminate Hitem.
    simpl. unfold page_contents. simpl omap.
    destruct (Py.dict_get "content" kvs) as [v|] eqn:Hv; simpl.
    + rewrite IH by done. by rewrite <- app_assoc.
    + by apply IH.
Qed.

(** The nested-document case does what it is meant to when every element
    of [pages] is a mapping. *)
Lemma nested_document_of_mappings kvs dkvs items :
  Py.dict_get "document" kvs = Some (JDict dkvs) →
  Py.dict_get "pages" dkvs = Some (JList items) →
  Forall (fun item => Py.is_dict item = true) items →
  extract_text_from_json (Parsed (JDict kvs)) = page_contents items.
Proof.
  intros Hdoc Hpages Hall.
  unfold extract_text_from_json, try_extract, extract_segments, is_nested_document.
  simpl. rewrite Hdoc. simpl. rewrite Hpages. simpl.
  by rewrite pages_loop_mappings.
Qed.

(** C1 (nested-document extraction).  On
    [{"document": {"pages": [{"content": "A"}, 5]}}] the extractor returns
    the empty list: the test ['content' in item] raises on the number, and
    the segment ["A"] already collected is lost; the specification asks for
    [["A"]]. *)
Theorem nested_document_number_page :
  extract_text_from_json (Parsed pages_with_a_number) = []
  ∧ try_extract (Parsed pages_with_a_number) = Raise TypeError
  ∧ page_contents [JDict [("content", JStr "A")]] = ["A"].
Proof. done. Qed.

(** *** The flat mapping *)



Lemma insert_sorted_perm k l : insert_sorted k l ≡ₚ k :: l.
Proof.
  induction l as [|y l IH]; simpl; [done|].
  destruct (String.leb k y); [done|]. rewrite IH. apply Permutation_swap.
Qed.

Lemma sorted_perm l : sorted l ≡ₚ l.
Proof.
  induction l as [|y l IH]; simpl; [done|].
  by rewrite insert_sorted_perm, IH.
Qed.

Lemma insert_sorted_Sorted k l :
  Sorted String.le l → Sorted String.le (insert_sorted k l).
Proof.
  induction 1 as [|y l Hl IH Hhd]; simpl.
  - by repeat constructor.
  - destruct (String.leb k y) eqn:Hky.
    + constructor; [by constructor|]. constructor. unfold String.le. by rewrite Hky.
    + constructor; [done|].
      assert (String.le y k) as Hyk.
      { destruct (String.leb_total y k) as [H|H]; [|congruence].
        unfold String.le. by rewrite H. }
      destruct Hhd as [|z l' Hyz]; simpl; [by constructor|].
      destruct (String.leb k z); by constructor.
Qed.

(** [sorted] sorts: its result is ordered and has the elements of its
    argument. *)
Lemma sorted_Sorted l : Sorted String.le (sorted l).
Proof.
  induction l as [|y l IH]; simpl; [constructor|by apply insert_sorted_Sorted].
Qed.




(** C6 (flat-mapping extraction).  On [{"document": 5, "page_1": "A"}],
    a mapping that has neither the nested-document nor the content-list
    shape, the extractor returns the empty list: the test
    ['pages' in data['document']] raises on the number; the specification asks for
    [["A"]].  On the example of the specification the result is [["A"; "B"]]. *)
Theorem flat_mapping_document_number :
  extract_text_from_json (Parsed flat_with_a_document_number) = []
  ∧ try_extract (Parsed flat_with_a_document_number) = Raise TypeError
  ∧ flat_values [("document", JInt 5); ("page_1", JStr "A")] = ["A"]
  ∧ extract_text_from_json (Parsed flat_pages) = ["A"; "B"].
Proof. done. Qed.

(** *** The translation client *)

(** C9, amended (a missing response field is an empty success).  When the
    endpoint answers with a 2xx status and a body that is a JSON object
    without the key [response], [translate_segment] returns the empty
    string, not [None], and the loop goes on with the next segment without
    writing a block. *)
Theorem missing_response_field (text model_name url : string) (s s' : server)
    (status : Z) (kvs : list (string * json)) :
  post s url (make_payload text model_name) = (Reply status (Some (JDict kvs)), s') →
  (200 ≤ status < 300)%Z →
  Py.dict_get "response" kvs = None →
  translate_segment text model_name url s = (Some "", s')
  ∧ ∀ (path : string) (rest : list string) (i : nat) (w : world),
      srv w = s →
      translate_pages model_name url path (text :: rest) i w
      = translate_pages model_name url path rest (S i)
          (after_call text model_name url w)
      ∧ out_files (after_call text model_name url w) = out_files w.
Proof.
  intros Hpost Hstatus Hkey.
  assert (translate_segment text model_name url s = (Some "", s')) as Htr.
  { unfold translate_segment. rewrite Hpost. unfold read_reply.
    replace (Z.leb 400 status && Z.ltb status 600) with false by lia.
    simpl. by rewrite Hkey. }
  split; [done|]. intros path rest i w <-.
  rewrite translate_pages_cons, Htr. done.
Qed.

End Pipeline.

Arguments World {server} out_files srv log.
Arguments out_files {server} w.
Arguments srv {server} w.
Arguments log {server} w.
Arguments translate_segment {server} post text model_name url s.
Arguments translate_pages {server} post model_name url path segments i w.
Arguments process_file py_repr {server} post selected_model url w entry.
Arguments main_loop py_repr {server} post selected_model url data_folder w.
Arguments translations {server} post model_name url segments s.

(** ** The sanitizer *)

Lemma sub_from_unmatched p : ∀ s bol,
  search_from p bol s = false → sub_from p 0 bol s = s.
Proof.
  induction s as [|c s IH]; intros bol Hs; [done|].
  simpl in Hs. simpl.
  destruct (match_here p bol (String c s)); [done|].
  by rewrite IH.
Qed.

Lemma str_length_app s t :
  String.length (s ++ t) = (String.length s + String.length t)%nat.
Proof. induction s as [|c s IH]; [done|]. rewrite str_app_cons. simpl. by rewrite IH. Qed.

Lemma space_len_bound s : (space_len s ≤ String.length s)%nat.
Proof.
  destruct s as [|c1 [|c2 [|c3 s]]]; simpl; repeat case_match; lia.
Qed.

(** The white space a text starts with is still there when the text goes
    on. *)
Lemma space_len_app a b j : space_len a = S j → space_len (a ++ b) = S j.
Proof.
  destruct a as [|c1 [|c2 [|c3 a]]]; rewrite ?str_app_cons; simpl;
    repeat case_match; congruence.
Qed.

Lemma lstrip_from_cons c s :
  lstrip_from 0 (String c s)
  = match space_len (String c s) with
    | S k => lstrip_from k s
    | O => String c s
    end.
Proof. reflexivity. Qed.

Lemma lstrip_fixed s : space_len s = 0%nat → lstrip s = s.
Proof.
  destruct s as [|c s]; [done|]. intros H. unfold lstrip.
  by rewrite lstrip_from_cons, H.
Qed.

(** What [lstrip] returns starts with no white space. *)
Lemma lstrip_from_clean s : ∀ k, space_len (lstrip_from k s) = 0%nat.
Proof.
  induction s as [|c s IH]; intros k; [done|].
  destruct k as [|k]; [|apply IH].
  rewrite lstrip_from_cons.
  destruct (space_len (String c s)) eqn:E; [done|apply IH].
Qed.

Lemma lstrip_starts_clean s : space_len (lstrip s) = 0%nat.
Proof. apply lstrip_from_clean. Qed.

(** A text that is white space only is passed over at the start of a
    longer text. *)
Lemma lstrip_from_app a : ∀ k b,
  (k ≤ String.length a)%nat → lstrip_from k a = "" →
  lstrip_from k (a ++ b) = lstrip b.
Proof.
  induction a as [|c a IH]; intros k b Hk Ha.
  - simpl in Hk. by assert (k = 0%nat) as -> by lia.
  - rewrite str_app_cons. destruct k as [|k].
    + rewrite lstrip_from_cons in Ha. rewrite lstrip_from_cons.
      destruct (space_len (String c a)) as [|j] eqn:E; [done|].
      change (String c (a ++ b)) with (String c a ++ b).
      rewrite (space_len_app _ b j E).
      apply IH; [|done].
      pose proof (space_len_bound (String c a)) as Hb. rewrite E in Hb.
      simpl in Hb. lia.
    + simpl in Hk. apply IH; [lia|done].
Qed.

Lemma lstrip_app a b : lstrip a = "" → lstrip (a ++ b) = lstrip b.
Proof. intros Ha. apply lstrip_from_app; [lia|done]. Qed.

Lemma rstrip_cons c s :
  rstrip (String c s)
  = if is_empty (lstrip (String c s)) then "" else String c (rstrip s).
Proof. reflexivity. Qed.

Lemma is_empty_true s : is_empty s = true → s = "".
Proof. by destruct s. Qed.

(** What [rstrip] cuts off is white space only. *)
Lemma rstrip_prefix s : ∃ t, s = rstrip s ++ t ∧ lstrip t = "".
Proof.
  induction s as [|c s (t & Ht & Hs)]; [by exists ""|].
  rewrite rstrip_cons.
  destruct (is_empty (lstrip (String c s))) eqn:E.
  - exists (String c s). split; [done|]. by apply is_empty_true.
  - exists t. rewrite str_app_cons. by rewrite <- Ht.
Qed.

Lemma rstrip_idem s : rstrip (rstrip s) = rstrip s.
Proof.
  induction s as [|c s IH]; [done|]. rewrite rstrip_cons.
  destruct (is_empty (lstrip (String c s))) eqn:E; [done|].
  rewrite rstrip_cons, IH.
  destruct (is_empty (lstrip (String c (rstrip s)))) eqn:E'; [|done].
  apply is_empty_true in E'.
  destruct (rstrip_prefix s) as (t & Ht & Hs).
  rewrite Ht, <- str_app_cons, (lstrip_app _ t E'), Hs in E. done.
Qed.

Lemma rstrip_starts_clean s : space_len s = 0%nat → space_len (rstrip s) = 0%nat.
Proof.
  intros Hs. destruct (rstrip_prefix s) as (t & Ht & _).
  destruct (space_len (rstrip s)) as [|j] eqn:E; [done|].
  rewrite Ht, (space_len_app _ t j E) in Hs. done.
Qed.

Lemma rstrip_lstrip_fixed s :
  space_len s = 0%nat → lstrip (rstrip s) = rstrip s.
Proof. intros Hs. by apply lstrip_fixed, rstrip_starts_clean. Qed.

Lemma strip_idem s : strip (strip s) = strip s.
Proof.
  unfold strip. rewrite rstrip_lstrip_fixed by apply lstrip_starts_clean.
  apply rstrip_idem.
Qed.

Lemma remove_unmatched text p :
  search p text = false → strip text = text → remove text p = text.
Proof.
  intros Hp Hs. unfold remove, sub. by rewrite sub_from_unmatched.
Qed.

Lemma foldl_remove_unmatched ps : ∀ text,
  Forall (fun p => search p text = false) ps → strip text = text →
  foldl remove text ps = text.
Proof.
  induction ps as [|p ps IH]; intros text Hall Hs; [done|].
  apply Forall_cons in Hall as [Hp Hall]. simpl.
  rewrite remove_unmatched by done. by apply IH.
Qed.

Lemma foldl_remove_stripped ps : ∀ text,
  ps ≠ [] → strip (foldl remove text ps) = foldl remove text ps.
Proof.
  induction ps as [|p ps IH] using rev_ind; intros text Hps; [done|].
  rewrite foldl_app. simpl. apply strip_idem.
Qed.

(** What [clean_response] returns has no white space at either end. *)
Lemma clean_response_stripped x : strip (clean_response x) = clean_response x.
Proof.
  unfold clean_response. destruct (is_empty x); [done|].
  by apply foldl_remove_stripped.
Qed.

(** An already clean text is left as it is. *)
Lemma clean_response_fixed y :
  already_clean y → strip y = y → clean_response y = y.
Proof.
  intros Hclean Hs. unfold clean_response.
  destruct (is_empty y) eqn:E; [by destruct y|].
  apply Forall_app in Hclean as [Hpre Hsuf].
  rewrite (foldl_remove_unmatched prefixes) by done.
  by apply foldl_remove_unmatched.
Qed.

(** C4, amended (sanitizer idempotence on clean text).  When the text the
    sanitizer returns is already clean, that is, none of the eight
    patterns matches anywhere in it, sanitizing it again changes
    nothing. *)
Theorem sanitizer_idempotent_on_clean (x : string) :
  already_clean (clean_response x) →
  clean_response (clean_response x) = clean_response x.
Proof.
  intros Hclean. apply clean_response_fixed; [done|].
  apply clean_response_stripped.
Qed.

(** ** Output naming *)

Lemma startswith_json_app s :
  s ≠ "" → startswith ".json" (s ++ ".json") = true → startswith ".json" s = true.
Proof.
  intros Hs.
  destruct s as [|c1 [|c2 [|c3 [|c4 [|c5 s]]]]]; [done|..];
    rewrite ?str_app_cons, ?str_app_nil_l; simpl;
    rewrite ?andb_false_r; done.
Qed.

(** A file name whose only [.json] is the one at its end gets the name
    the specification gives: stem, suffix, [.txt]. *)
Lemma output_filename_of_stem stem suffix :
  Text.contains ".json" stem = false →
  Text.replace ".json" (suffix ++ ".txt") (stem ++ ".json")
  = stem ++ suffix ++ ".txt".
Proof.
  unfold Text.replace. induction stem as [|c stem IH]; intros Hstem.
  - rewrite str_app_nil_l. simpl. by rewrite str_app_nil_r.
  - simpl in Hstem. apply orb_false_iff in Hstem as [Hhere Hstem].
    rewrite !str_app_cons.
    change (replace_from ".json" (suffix ++ ".txt") 0 (String c (stem ++ ".json")))
      with (if startswith ".json" (String c (stem ++ ".json"))
            then (suffix ++ ".txt")
                   ++ replace_from ".json" (suffix ++ ".txt") 4 (stem ++ ".json")
            else String c (replace_from ".json" (suffix ++ ".txt") 0 (stem ++ ".json"))).
    destruct (startswith ".json" (String c (stem ++ ".json"))) eqn:E.
    + rewrite <- str_app_cons in E. apply startswith_json_app in E; [|done].
      simpl in Hhere. simpl in E. congruence.
    + by rewrite IH.
Qed.

(** C8 (output naming).  For the input file [a.json.json] and the suffix
    [_en] the output is named [a_en.txt_en.txt]: [str.replace] replaces
    both occurrences of [.json]; the specification asks for [a.json_en.txt]. *)
Theorem output_filename_two_extensions :
  output_filename "a.json.json" "_en" = "a_en.txt_en.txt"
  ∧ endswith ".json" "a.json.json" = true
  ∧ output_filename "a.json.json" "_en" ≠ "a.json" ++ "_en" ++ ".txt".
Proof. done. Qed.

(** ** The properties at concrete inputs *)

(** [sanitize(sanitize(x)) = sanitize(x)] fails for
    [x = "Translation: Translation: Hallo"]: the first pass removes one
    preamble and returns ["Translation: Hallo"], the second pass removes
    the other and returns ["Hallo"]. *)
Lemma sanitizer_not_idempotent :
  clean_response "Translation: Translation: Hallo" = "Translation: Hallo"
  ∧ clean_response (clean_response "Translation: Translation: Hallo")
    ≠ clean_response "Translation: Translation: Hallo".
Proof. split; [reflexivity|]. vm_compute. discriminate. Qed.

Lemma sanitizer_idempotent_on_clean_witness :
  clean_response (clean_response "Here is the translation: Hallo Welt")
  = clean_response "Here is the translation: Hallo Welt".
Proof.
  apply (sanitizer_idempotent_on_clean "Here is the translation: Hallo Welt").
  unfold already_clean, prefixes, suffixes. cbv [app].
  repeat (constructor; [vm_compute; reflexivity|]).
  constructor.
Defined.

(** A 2xx answer whose body is the JSON array [[]] is valid JSON without a
    [response] field, and [translate_segment] returns [None] for it:
    [.get] raises on a list. *)
Lemma array_body_is_a_failure :
  fst (translate_segment scripted_post "Hallo" "GTE" "http://localhost:11434/api/generate"
         [Reply 200 (Some (JList []))]) = None
  ∧ fst (translate_segment scripted_post "Hallo" "GTE" "http://localhost:11434/api/generate"
           [Reply 200 (Some (JList []))]) ≠ Some "".
Proof. split; [reflexivity|discriminate]. Qed.

Lemma missing_response_field_witness :
  translate_segment scripted_post "Hallo" "GTE" "http://localhost:11434/api/generate"
    [Reply 200 (Some (JDict [("done", JBool true)]))]
  = (Some "", []).
Proof.
  apply (missing_response_field (list http_reply) scripted_post
           "Hallo" "GTE" "http://localhost:11434/api/generate"
           [Reply 200 (Some (JDict [("done", JBool true)]))] [] 200
           [("done", JBool true)]);
    [reflexivity|lia|reflexivity].
Defined.

Lemma abort_discrimination_witness :
  translate_pages scripted_post "GTE" "http://e" "doc_en.txt" ["eins"; "zwei"] 0
    (World ∅ [NoReply; Reply 200 (Some (JDict [("response", JStr "two")]))] [])
  = after_call (list http_reply) scripted_post "eins" "GTE" "http://e"
      (World ∅ [NoReply; Reply 200 (Some (JDict [("response", JStr "two")]))] [])
  ∧ translate_pages scripted_post "GTE" "http://e" "doc_en.txt" ["eins"; "zwei"] 0
      (World ∅ [Reply 200 (Some (JDict [("response", JStr "")])); NoReply] [])
    = translate_pages scripted_post "GTE" "http://e" "doc_en.txt" ["zwei"] 1
        (after_call (list http_reply) scripted_post "eins" "GTE" "http://e"
           (World ∅ [Reply 200 (Some (JDict [("response", JStr "")])); NoReply] [])).
Proof.
  split.
  - apply (proj1 (abort_discrimination (list http_reply) scripted_post
                    "GTE" "http://e" "doc_en.txt" "eins" ["zwei"] 0
                    (World ∅ [NoReply; Reply 200 (Some (JDict [("response", JStr "two")]))] []))).
    reflexivity.
  - apply (proj1 (proj2 (abort_discrimination (list http_reply) scripted_post
                    "GTE" "http://e" "doc_en.txt" "eins" ["zwei"] 0
                    (World ∅ [Reply 200 (Some (JDict [("response", JStr "")])); NoReply] [])))).
    reflexivity.
Defined.

(** Segment 3 of 5 fails: the file holds the pages 1 and 2, and three
    calls were made. *)
Lemma partial_failure_durability_witness :
  process_file opaque_repr scripted_post (Profile "German to English" "GTE" "_en")
    "http://e"
    (World ∅ [Reply 200 (Some (JDict [("response", JStr "one")]));
              Reply 200 (Some (JDict [("response", JStr "two")]));
              NoReply;
              Reply 200 (Some (JDict [("response", JStr "four")]))] [])
    ("doc.json",
     Parsed (JList [JStr "eins"; JStr "zwei"; JStr "drei"; JStr "vier"; JStr "fuenf"]))
  = World (<["doc_en.txt" := "--- Page 1 ---
one

--- Page 2 ---
two

"]> ∅)
      [Reply 200 (Some (JDict [("response", JStr "four")]))]
      ([] ++ EvExtract "doc.json"
          :: posts "GTE" "http://e" (["eins"; "zwei"] ++ ["drei"]))%list.
Proof.
  apply (partial_failure_durability opaque_repr (list http_reply) scripted_post
           (Profile "German to English" "GTE" "_en") "http://e" "doc.json"
           (Parsed (JList [JStr "eins"; JStr "zwei"; JStr "drei"; JStr "vier"; JStr "fuenf"]))
           (World ∅ [Reply 200 (Some (JDict [("response", JStr "one")]));
                     Reply 200 (Some (JDict [("response", JStr "two")]));
                     NoReply;
                     Reply 200 (Some (JDict [("response", JStr "four")]))] [])
           ["eins"; "zwei"] ["vier"; "fuenf"] "drei" ["one"; "two"]
           [NoReply; Reply 200 (Some (JDict [("response", JStr "four")]))]
           [Reply 200 (Some (JDict [("response", JStr "four")]))]).
  - reflexivity.
  - reflexivity.
  - reflexivity.
  - repeat constructor; discriminate.
  - reflexivity.
Defined.

Lemma page_numbers_follow_positions_witness :
  out_files
    (translate_pages scripted_post "GTE" "http://e" "doc_en.txt" ["eins"; "zwei"; "drei"] 0
       (World {["doc_en.txt" := ""]}
          [Reply 200 (Some (JDict [("response", JStr "one")]));
           Reply 200 (Some (JDict [("done", JBool true)]));
           Reply 200 (Some (JDict [("response", JStr "three")]))] []))
    !! "doc_en.txt"
  = Some ("" ++ "--- Page 1 ---
" ++ "one" ++ "

--- Page 3 ---
" ++ "three" ++ "

").
Proof.
  refine (proj2 (page_numbers_follow_positions (list http_reply) scripted_post
                   "GTE" "http://e" "doc_en.txt" ["eins"; "zwei"; "drei"]
                   (World {["doc_en.txt" := ""]}
                      [Reply 200 (Some (JDict [("response", JStr "one")]));
                       Reply 200 (Some (JDict [("done", JBool true)]));
                       Reply 200 (Some (JDict [("response", JStr "three")]))] [])
                   "" _) "one" "three" _ _ _);
    [vm_compute; reflexivity|discriminate|discriminate|reflexivity].
Defined.

Lemma resumability_witness :
  process_file opaque_repr scripted_post (Profile "German to English" "GTE" "_en")
    "http://e"
    (World {["doc_en.txt" := ""]} [Reply 200 (Some (JDict [("response", JStr "one")]))] [])
    ("doc.json", Parsed (JList [JStr "eins"]))
  = World {["doc_en.txt" := ""]} [Reply 200 (Some (JDict [("response", JStr "one")]))] [].
Proof.
  apply (proj2 (resumability opaque_repr (list http_reply) scripted_post
                  (Profile "German to English" "GTE" "_en") "http://e"
                  [("doc.json", Parsed (JList [JStr "eins"]))]
                  (World ∅ [] []))
           (World {["doc_en.txt" := ""]}
              [Reply 200 (Some (JDict [("response", JStr "one")]))] [])
           ("doc.json", Parsed (JList [JStr "eins"]))).
  exists "". reflexivity.
Defined.



(** ** The examples of the specification *)

Example sanitizer_removes_preamble :
  clean_response "Here is the translation: Hallo Welt" = "Hallo Welt".
Proof. reflexivity. Qed.

(** Text outside ASCII: Urdu is left as it is, the accent of [Voilà]
    stays, and U+2003 (EM SPACE) and U+00A0 (NO-BREAK SPACE) are white
    space. *)
Example sanitizer_on_urdu :
  clean_response "سلام" = "سلام"
  ∧ clean_response "Translation: سلام دنیا " = "سلام دنیا"
  ∧ clean_response " Voilà " = "Voilà".
Proof. repeat split; vm_compute; reflexivity. Qed.

Example sanitizer_on_wide_space :
  clean_response (bytes [226; 128; 131] ++ "Hallo" ++ bytes [194; 160]) = "Hallo".
Proof. vm_compute. reflexivity. Qed.

(** [re.IGNORECASE] takes U+017F (LONG S) for [s] and U+212A (KELVIN)
    for [k]. *)
Example sanitizer_on_folded_letters :
  clean_response ("Hallo Plea" ++ bytes [197; 191] ++ "e let me "
                  ++ bytes [226; 132; 170] ++ "now more")
  = "Hallo".
Proof. vm_compute. reflexivity. Qed.

Example bypass_mode :
  forced_prompt "Hallo Welt" "llama3" = "Hallo Welt".
Proof. reflexivity. Qed.

Example empty_pages_give_no_segments :
  extract_text_from_json opaque_repr
    (Parsed (JDict [("document", JDict [("pages", JList [])])])) = []
  ∧ extract_text_from_json opaque_repr (Parsed (JDict [("content", JList [])])) = [].
Proof. split; reflexivity. Qed.

Example lexicographic_page_order :
  extract_text_from_json opaque_repr
    (Parsed (JDict [("page_2", JStr "B"); ("page_10", JStr "J"); ("page_1", JStr "A")]))
  = ["A"; "J"; "B"].
Proof. reflexivity. Qed.

(** [doc1.json = {"content": [{"content": "Hallo"}, "Welt"]}], suffix
    [_en], the endpoint answering [Hello] and then [World]. *)
Example end_to_end :
  out_files
    (main_loop opaque_repr scripted_post (Profile "German to English" "GTE" "_en")
       "http://e"
       [("doc1.json",
         Parsed (JDict [("content", JList [JDict [("content", JStr "Hallo")];
                                           JStr "Welt"])]));
        ("notes.txt", Unreadable)]
       (World ∅ [Reply 200 (Some (JDict [("response", JStr "Hello")]));
                 Reply 200 (Some (JDict [("response", JStr "World")]))] []))
    !! "doc1_en.txt"
  = Some "--- Page 1 ---
Hello

--- Page 2 ---
World

".
Proof. vm_compute. reflexivity. Qed.

Example page_block_format :
  page_block 1 "Hello" = "--- Page 1 ---
Hello

".
Proof. reflexivity. Qed.

(** ** Further properties of the extractor *)

Section extractor.

Variable py_repr : json -> string.

Lemma content_loop_segments items : ∀ text_segments,
  content_loop py_repr items text_segments
  = Ok (text_segments ++ content_segments py_repr items)%list.
Proof.
  induction items as [|item items IH]; intros acc.
  - simpl. by rewrite app_nil_r.
  - unfold content_segments. simpl omap.
    destruct item as [| | | |s|l|kvs]; simpl;
      try destruct (Py.dict_get "content" kvs) as [v|]; simpl;
      rewrite IH, <- ?app_assoc; done.
Qed.

(** X1 (content-list extraction).  For a mapping without a [document] key
    whose [content] value is a list, the extractor returns, in order, the
    stringified [content] of every element that is a mapping with that
    key and every element that is a string; the other elements are
    skipped, whatever they are, and the other keys of the mapping are
    ignored. *)
Theorem content_list_extraction (kvs : list (string * json)) (items : list json) :
  Py.dict_get "document" kvs = None →
  Py.dict_get "content" kvs = Some (JList items) →
  extract_text_from_json py_repr (Parsed (JDict kvs)) = content_segments py_repr items.
Proof.
  intros Hdoc Hcontent.
  unfold extract_text_from_json, try_extract, extract_segments,
    is_nested_document, is_content_list.
  simpl. rewrite Hdoc. simpl. rewrite Hcontent. simpl.
  by rewrite content_loop_segments.
Qed.

Lemma pages_loop_scalar items : ∀ text_segments,
  Exists (fun item => is_scalar item = true) items →
  ∃ e, pages_loop py_repr items text_segments = Raise e.
Proof.
  induction items as [|item items IH]; intros acc Hex.
  - by apply Exists_nil in Hex.
  - apply Exists_cons in Hex as [Hitem|Hex].
    + exists TypeError. by destruct item.
    + simpl. destruct (Py.contains "content" item) as [[]|e]; simpl; [| |by eexists].
      * destruct (Py.getitem item "content") as [v|e]; simpl; [|by eexists].
        by apply IH.
      * by apply IH.
Qed.

(** X2 (a scalar page empties the extraction).  In a nested document
    whose [pages] list has a number, a boolean or [null] among its
    elements, the extractor returns the empty list, whatever the other
    elements hold. *)
Theorem nested_document_scalar_page (kvs dkvs : list (string * json))
    (items : list json) :
  Py.dict_get "document" kvs = Some (JDict dkvs) →
  Py.dict_get "pages" dkvs = Some (JList items) →
  Exists (fun item => is_scalar item = true) items →
  extract_text_from_json py_repr (Parsed (JDict kvs)) = [].
Proof.
  intros Hdoc Hpages Hex.
  destruct (pages_loop_scalar items [] Hex) as [e He].
  unfold extract_text_from_json, try_extract, extract_segments, is_nested_document.
  simpl. rewrite Hdoc. simpl. rewrite Hpages. simpl. rewrite He.
  by destruct e.
Qed.


End extractor.

(** ** Further properties of the sanitizer *)

Lemma lstrip_from_sublist s : ∀ k,
  list_ascii_of_string (lstrip_from k s) `sublist_of` list_ascii_of_string s.
Proof.
  induction s as [|c s IH]; intros k; [done|].
  destruct k as [|k]; [|by apply sublist_cons, IH].
  rewrite lstrip_from_cons.
  destruct (space_len (String c s)); [done|by apply sublist_cons, IH].
Qed.

Lemma lstrip_sublist s :
  list_ascii_of_string (lstrip s) `sublist_of` list_ascii_of_string s.
Proof. apply lstrip_from_sublist. Qed.

Lemma rstrip_sublist s :
  list_ascii_of_string (rstrip s) `sublist_of` list_ascii_of_string s.
Proof.
  induction s as [|c s IH]; [done|]. rewrite rstrip_cons.
  destruct (is_empty (lstrip (String c s))).
  - apply sublist_nil_l.
  - by apply sublist_skip.
Qed.

Lemma sub_from_sublist p s : ∀ skip bol,
  list_ascii_of_string (sub_from p skip bol s) `sublist_of` list_ascii_of_string s.
Proof.
  induction s as [|c s IH]; intros skip bol; simpl; [done|].
  destruct skip as [|k]; [|by apply sublist_cons].
  destruct (match_here p bol (String c s)) as [r|].
  - destruct (S (String.length s) - String.length r);
      [by apply sublist_skip|by apply sublist_cons].
  - by apply sublist_skip.
Qed.

Lemma remove_sublist text p :
  list_ascii_of_string (remove text p) `sublist_of` list_ascii_of_string text.
Proof.
  unfold remove, strip, sub.
  etrans; [apply rstrip_sublist|]. etrans; [apply lstrip_sublist|].
  apply sub_from_sublist.
Qed.

Lemma foldl_remove_sublist ps : ∀ text,
  list_ascii_of_string (foldl remove text ps) `sublist_of` list_ascii_of_string text.
Proof.
  induction ps as [|p ps IH]; intros text; simpl; [done|].
  etrans; [apply IH|]. apply remove_sublist.
Qed.

(** X4 (the sanitizer only removes).  The sanitized text is what is left
    of the input when parts of it are dropped: its encoding is a
    subsequence of the encoding of the input, so the sanitizer never adds
    or reorders anything, and the encoding of its result is never longer
    than that of its input. *)
Theorem sanitizer_only_removes (x : string) :
  list_ascii_of_string (clean_response x) `sublist_of` list_ascii_of_string x
  ∧ (String.length (clean_response x) ≤ String.length x)%nat.
Proof.
  assert (list_ascii_of_string (clean_response x)
            `sublist_of` list_ascii_of_string x) as H.
  { unfold clean_response. destruct (is_empty x); [apply sublist_nil_l|].
    etrans; apply foldl_remove_sublist. }
  split; [done|]. apply sublist_length in H.
  assert (∀ s, length (list_ascii_of_string s) = String.length s) as Hlen.
  { intros s. induction s as [|c s IH]; simpl; [done|]. by rewrite IH. }
  by rewrite !Hlen in H.
Qed.

Lemma stripped_lstrip t : strip t = t → lstrip t = t.
Proof.
  unfold strip. intros H. rewrite <- H at 1.
  rewrite rstrip_lstrip_fixed by apply lstrip_starts_clean. done.
Qed.

Lemma stripped_rstrip t : strip t = t → rstrip t = t.
Proof. unfold strip. intros H. rewrite <- H at 1. by rewrite rstrip_idem. Qed.

(** A text that [rstrip] leaves as it is does not end with white space. *)
Lemma rstrip_suffix_clean pre : ∀ t,
  rstrip (pre ++ t) = pre ++ t → t ≠ "" → lstrip t ≠ "".
Proof.
  induction pre as [|c pre IH]; intros t H Ht Hl.
  - rewrite str_app_nil_l in H. destruct t as [|c t]; [done|].
    rewrite rstrip_cons, Hl in H. done.
  - rewrite str_app_cons, rstrip_cons in H.
    destruct (is_empty (lstrip (String c (pre ++ t)))); [done|].
    injection H as H. by apply (IH t).
Qed.

Lemma startswith_inv p : ∀ s, startswith p s = true → ∃ r, s = p ++ r.
Proof.
  induction p as [|a p IH]; intros s Hs; [by exists s|].
  destruct s as [|b s]; [done|]. simpl in Hs.
  apply andb_true_iff in Hs as [Hab Hs]. apply Ascii.eqb_eq in Hab as ->.
  destruct (IH s Hs) as [r ->]. by exists r.
Qed.

Lemma endswith_inv p : ∀ s, endswith p s = true → ∃ pre, s = pre ++ p.
Proof.
  induction s as [|c s IH]; simpl; intros Hs.
  - rewrite orb_false_r in Hs. apply String.eqb_eq in Hs as ->. by exists "".
  - apply orb_true_iff in Hs as [Hs|Hs].
    + apply String.eqb_eq in Hs as ->. by exists "".
    + destruct (IH Hs) as [pre ->]. by exists (String c pre).
Qed.

(** Each of the 29 encodings is white space for [lstrip]. *)
Lemma white_space_is_space :
  Forall (fun w => w ≠ "" ∧ lstrip w = "" ∧ ∃ j, space_len w = S j) white_space.
Proof.
  unfold white_space. cbv [map].
  repeat (constructor; [split; [discriminate|split; [reflexivity|by eexists]]|]).
  constructor.
Qed.

(** X5 (no white space at either end).  A sanitized text neither starts
    nor ends with one of the 29 characters that [str.isspace] holds
    for. *)
Theorem sanitizer_trims (x : string) :
  Forall (fun w => startswith w (clean_response x) = false
                   ∧ endswith w (clean_response x) = false) white_space.
Proof.
  pose proof (clean_response_stripped x) as Hs.
  pose proof (stripped_lstrip _ Hs) as Hl.
  pose proof (stripped_rstrip _ Hs) as Hr.
  eapply Forall_impl; [apply white_space_is_space|].
  intros w (Hw & Hwl & j & Hj). split.
  - destruct (startswith w (clean_response x)) eqn:E; [|done].
    apply startswith_inv in E as [r E].
    pose proof (lstrip_starts_clean (clean_response x)) as Hc.
    rewrite Hl, E, (space_len_app w r j Hj) in Hc. done.
  - destruct (endswith w (clean_response x)) eqn:E; [|done].
    apply endswith_inv in E as [pre E]. rewrite E in Hr.
    by destruct (rstrip_suffix_clean pre w Hr Hw).
Qed.

Lemma match_here_unanchored p : ∀ b1 b2 s,
  Forall (fun a => a ≠ Bol) p → match_here p b1 s = match_here p b2 s.
Proof.
  induction p as [|a p IH]; intros b1 b2 s Hp; [done|].
  apply Forall_cons in Hp as [Ha Hp].
  destruct a; [done| | |].
  - by destruct s.
  - destruct s as [|x s]; simpl; by rewrite (IH b1 b2).
  - destruct s as [|x s]; simpl; by rewrite (IH b1 b2).
Qed.

Lemma search_from_unanchored p b s :
  Forall (fun a => a ≠ Bol) p →
  search_from p true s = false → search_from p b s = false.
Proof.
  intros Hp. destruct s as [|c s]; simpl;
    by rewrite (match_here_unanchored p b true).
Qed.

Lemma search_from_anchored p b s :
  search_from (Bol :: p) true s = false → search_from (Bol :: p) b s = false.
Proof.
  destruct b; [done|]. destruct s as [|c s]; simpl; [done|].
  by destruct (match_here p true (String c s)).
Qed.

(** A text in which no pattern matches has no match either when it is
    read from the middle of a line. *)
Lemma already_clean_inside t :
  already_clean t →
  Forall (fun p => search_from p false t = false) (prefixes ++ suffixes)%list.
Proof.
  unfold already_clean, prefixes, suffixes. cbv [app]. intros H.
  repeat (apply Forall_cons in H as [? H]).
  repeat (constructor; [first
    [ by apply search_from_anchored
    | apply search_from_unanchored; [repeat constructor; discriminate|done] ]|]).
  constructor.
Qed.

Lemma foldl_remove_cons text p ps :
  foldl remove text (p :: ps) = foldl remove (remove text p) ps.
Proof. reflexivity. Qed.

Lemma rstrip_keep c s :
  space_len (String c s) = 0%nat → rstrip (String c s) = String c (rstrip s).
Proof. intros H. by rewrite rstrip_cons, lstrip_fixed. Qed.

Lemma foldl_remove_nil text : foldl remove text [] = text.
Proof. reflexivity. Qed.

Lemma sub_from_matched p bol c s r k :
  match_here p bol (String c s) = Some r →
  String.length (String c s) - String.length r = S k →
  sub_from p 0 bol (String c s) = sub_from p k (is_newline c) s.
Proof. intros Hm Hk. simpl sub_from. rewrite Hm. simpl in Hk. by rewrite Hk. Qed.

Lemma translation_preamble (t : string) :
  t ≠ "" → strip t = t → already_clean t →
  clean_response ("Translation: " ++ t) = t.
Proof.
  intros Ht Hs Hclean.
  pose proof (stripped_rstrip t Hs) as Hr.
  pose proof (already_clean_inside t Hclean) as Hin.
  assert (∀ i p, (prefixes ++ suffixes)%list !! i = Some p → search p t = false)
    as Hc by (intros i p; apply (Forall_lookup_1 _ _ _ _ Hclean)).
  assert (∀ i p, (prefixes ++ suffixes)%list !! i = Some p →
                 search_from p false t = false)
    as Hi by (intros i p; apply (Forall_lookup_1 _ _ _ _ Hin)).
  assert (strip ("Translation: " ++ t) = "Translation: " ++ t) as HsX.
  { unfold strip.
    assert (lstrip ("Translation: " ++ t) = "Translation: " ++ t) as -> by reflexivity.
    rewrite !str_app_cons, str_app_nil_l. rewrite !rstrip_keep by reflexivity.
    rewrite rstrip_cons. change (lstrip (String " " t)) with (lstrip t).
    by rewrite (stripped_lstrip t Hs), (is_empty_false t Ht), Hr. }
  unfold clean_response.
  assert (is_empty ("Translation: " ++ t) = false) as -> by reflexivity.
  unfold prefixes. rewrite !foldl_remove_cons, foldl_remove_nil.
  rewrite (remove_unmatched ("Translation: " ++ t));
    [|exact (Hi 0 _ eq_refl)|exact HsX].
  rewrite (remove_unmatched ("Translation: " ++ t));
    [|exact (Hi 1 _ eq_refl)|exact HsX].
  rewrite (remove_unmatched ("Translation: " ++ t));
    [|exact (Hi 2 _ eq_refl)|exact HsX].
  assert (remove ("Translation: " ++ t) (Bol :: lits "Translation:") = t) as ->.
  { unfold remove, sub. rewrite !str_app_cons, str_app_nil_l.
    rewrite (sub_from_matched _ _ _ _ (String " " t) 11);
      [|reflexivity|simpl; lia].
    change (strip (String " " (sub_from (Bol :: lits "Translation:") 0 false t)) = t).
    rewrite sub_from_unmatched by exact (Hi 3 _ eq_refl).
    exact Hs. }
  rewrite (remove_unmatched t); [|exact (Hc 4 _ eq_refl)|exact Hs].
  apply foldl_remove_unmatched; [|exact Hs].
  unfold already_clean in Hclean. by apply Forall_app in Hclean as [_ ?].
Qed.

Lemma here_is_preamble (t : string) :
  t ≠ "" → strip t = t → already_clean t →
  clean_response ("Here is the translation: " ++ t) = t.
Proof.
  intros Ht Hs Hclean.
  pose proof (already_clean_inside t Hclean) as Hin.
  assert (∀ i p, (prefixes ++ suffixes)%list !! i = Some p → search p t = false)
    as Hc by (intros i p; apply (Forall_lookup_1 _ _ _ _ Hclean)).
  assert (∀ i p, (prefixes ++ suffixes)%list !! i = Some p →
                 search_from p false t = false)
    as Hi by (intros i p; apply (Forall_lookup_1 _ _ _ _ Hin)).
  unfold clean_response.
  assert (is_empty ("Here is the translation: " ++ t) = false) as -> by reflexivity.
  unfold prefixes. rewrite !foldl_remove_cons, foldl_remove_nil.
  assert (remove ("Here is the translation: " ++ t)
            (Bol :: lits "Here is the" ++ LazyDots :: lits "translation"
                 ++ LazyDots :: lits ":")%list = t) as ->.
  { unfold remove, sub. rewrite !str_app_cons, str_app_nil_l.
    rewrite (sub_from_matched _ _ _ _ (String " " t) 23);
      [|reflexivity|simpl; lia].
    match goal with
    | |- strip (sub_from ?p _ _ _) = _ =>
        change (strip (String " " (sub_from p 0 false t)) = t)
    end.
    rewrite sub_from_unmatched by exact (Hi 0 _ eq_refl).
    exact Hs. }
  rewrite (remove_unmatched t); [|exact (Hc 1 _ eq_refl)|exact Hs].
  rewrite (remove_unmatched t); [|exact (Hc 2 _ eq_refl)|exact Hs].
  rewrite (remove_unmatched t); [|exact (Hc 3 _ eq_refl)|exact Hs].
  rewrite (remove_unmatched t); [|exact (Hc 4 _ eq_refl)|exact Hs].
  apply foldl_remove_unmatched; [|exact Hs].
  unfold already_clean in Hclean. by apply Forall_app in Hclean as [_ ?].
Qed.

(** X6 (known preambles are removed).  For a non-empty text [t] that is
    already clean and has no white space at its ends, the sanitizer turns
    both ["Here is the translation: " ++ t] and ["Translation: " ++ t]
    into [t]. *)
Theorem known_preambles_removed (t : string) :
  t ≠ "" → strip t = t → already_clean t →
  clean_response ("Here is the translation: " ++ t) = t
  ∧ clean_response ("Translation: " ++ t) = t.
Proof.
  intros Ht Hs Hclean. split.
  - by apply here_is_preamble.
  - by apply translation_preamble.
Qed.

(** ** Further properties of the translation client *)

Section client.

Variable server : Type.
Variable post : server -> string -> payload -> http_reply * server.

Lemma clean_response_dyn_raises (v : json) :
  (∃ e, clean_response_dyn v = Raise e)
  ↔ Py.truthy v = true ∧ Py.is_str v = false.
Proof.
  unfold clean_response_dyn.
  destruct v as [|[]|z|f|t|l|kvs]; simpl.
  - split; [by intros [? ?]|by intros [? ?]].
  - split; [done|by eexists].
  - split; [by intros [? ?]|by intros [? ?]].
  - destruct (Z.eqb z 0); simpl; (split; [by intros [? ?]|by intros [? ?]])
      || (split; [done|by eexists]).
  - destruct f; simpl; (split; [by intros [? ?]|by intros [? ?]])
      || (split; [done|by eexists]).
  - destruct (is_empty t); simpl; split; by intros [? ?].
  - destruct l; simpl; (split; [by intros [? ?]|by intros [? ?]])
      || (split; [done|by eexists]).
  - destruct kvs; simpl; (split; [by intros [? ?]|by intros [? ?]])
      || (split; [done|by eexists]).
Qed.

Lemma none_iff_raises (r : result string) :
  match r with Ok t => Some t | Raise _ => None end = None ↔ ∃ e, r = Raise e.
Proof. destruct r; split; try done; [by intros [? ?]|by eexists]. Qed.

(** X7 (when a translation fails).  [translate_segment] returns [None]
    exactly when the call raised, or the status is a 4xx or 5xx one, or
    the body is not JSON, or it is JSON but no object, or its [response]
    value is a truthy value that is not a string. *)
Theorem translation_fails_exactly (text model_name url : string) (s : server) :
  fst (translate_segment post text model_name url s) = None ↔
  match fst (post s url (make_payload text model_name)) with
  | NoReply => True
  | Reply status body =>
      (400 ≤ status < 600)%Z
      ∨ match body with
        | None => True
        | Some (JDict kvs) =>
            ∃ v, Py.dict_get "response" kvs = Some v
                 ∧ Py.truthy v = true ∧ Py.is_str v = false
        | Some _ => True
        end
  end.
Proof.
  unfold translate_segment.
  destruct (post s url (make_payload text model_name)) as [r s']. simpl.
  destruct r as [|status body]; [done|]. unfold read_reply.
  destruct (Z.leb 400 status && Z.ltb status 600) eqn:E.
  { split; [|done]. intros _. left. lia. }
  assert (¬ (400 ≤ status < 600)%Z) as Hst by lia.
  destruct body as [j|]; [|by split; [right|]].
  destruct j as [| | | | | |kvs]; try (by split; [right|]).
  simpl. destruct (Py.dict_get "response" kvs) as [v|] eqn:Hv; simpl.
  - rewrite none_iff_raises, clean_response_dyn_raises. split.
    + intros H. right. by exists v.
    + by intros [?|(? & [= <-] & ?)].
  - split; [done|]. by intros [?|(? & ? & _)].
Qed.

(** X8 (what a translation is).  A text returned by [translate_segment]
    comes from an answer without a 4xx or 5xx status whose body is a JSON
    object: it is the sanitized [response] string of that object, or the
    empty text when [response] is missing or is no string. *)
Theorem translation_is_sanitized (text model_name url : string) (s : server)
    (t : string) :
  fst (translate_segment post text model_name url s) = Some t →
  ∃ status kvs,
    fst (post s url (make_payload text model_name)) = Reply status (Some (JDict kvs))
    ∧ ¬ (400 ≤ status < 600)%Z
    ∧ t = match Py.dict_get "response" kvs with
          | Some (JStr r) => clean_response r
          | _ => ""
          end.
Proof.
  unfold translate_segment.
  destruct (post s url (make_payload text model_name)) as [r s']. simpl.
  destruct r as [|status body]; [done|]. unfold read_reply.
  destruct (Z.leb 400 status && Z.ltb status 600) eqn:E; [done|].
  destruct body as [[| | | | | |kvs]|]; try done.
  intros Ht. exists status, kvs. split; [done|]. split; [lia|].
  simpl in Ht. destruct (Py.dict_get "response" kvs) as [v|]; [|by simplify_eq/=].
  unfold clean_response_dyn in Ht.
  destruct v as [|[]|z|f|r|l|kvs']; simpl in Ht; try by simplify_eq.
  - by destruct (Z.eqb z 0); simplify_eq/=.
  - by destruct f; simplify_eq/=.
  - destruct r; by simplify_eq/=.
  - by destruct l; simplify_eq/=.
  - by destruct kvs'; simplify_eq/=.
Qed.

End client.


(** ** Further properties of the driver *)

Section driver.

Variable py_repr : json -> string.
Variable server : Type.
Variable post : server -> string -> payload -> http_reply * server.

(** The segment loop writes to its own file only. *)
Lemma translate_pages_frame model_name url path segments : ∀ i (w : world server) k,
  k ≠ path →
  out_files (translate_pages post model_name url path segments i w) !! k
  = out_files w !! k.
Proof.
  induction segments as [|segment rest IH]; intros i w k Hk; [done|].
  rewrite translate_pages_cons.
  destruct (fst (translate_segment post segment model_name url (srv w))) as [t|];
    [|done].
  destruct (is_empty t); rewrite IH by done; simpl; [done|].
  by rewrite lookup_insert_ne.
Qed.

Lemma process_file_frame selected_model url (w : world server) entry k :
  k ≠ output_filename entry.1 (file_suffix selected_model) →
  out_files (process_file py_repr post selected_model url w entry) !! k
  = out_files w !! k.
Proof.
  intros Hk. unfold process_file. case_bool_decide; [done|].
  destruct (extract_text_from_json py_repr entry.2); [done|].
  rewrite translate_pages_frame by done. simpl. by rewrite lookup_insert_ne.
Qed.

Lemma process_file_preserves selected_model url (w : world server) entry k c :
  out_files w !! k = Some c →
  out_files (process_file py_repr post selected_model url w entry) !! k = Some c.
Proof.
  intros Hc.
  destruct (decide (k = output_filename entry.1 (file_suffix selected_model)))
    as [->|Hk].
  - unfold process_file. by rewrite bool_decide_eq_true_2 by (by rewrite Hc).
  - by rewrite process_file_frame.
Qed.

(** The calls of the segment loop: one per segment, in the order of the
    segments, up to and including the first one whose translation is
    [None]. *)
Lemma translate_pages_log model_name url path segments : ∀ i (w : world server),
  log (translate_pages post model_name url path segments i w)
  = (log w ++ posts model_name url
       (take (S (length (answered
                  (fst (translations post model_name url segments (srv w))))))
             segments))%list.
Proof.
  induction segments as [|segment rest IH]; intros i w.
  - simpl. by rewrite app_nil_r.
  - rewrite translate_pages_cons, translations_cons. simpl fst.
    destruct (fst (translate_segment post segment model_name url (srv w)))
      as [t|].
    + simpl answered. simpl length. rewrite firstn_cons.
      destruct (is_empty t); rewrite IH; simpl; by rewrite <- app_assoc.
    + simpl. by rewrite ?take_0.
Qed.

(** X10 (a run writes only the outputs of its inputs).  A name of the
    result folder that is not the output name of any [.json] entry of the
    data folder is untouched by a run: present with the same content, or
    absent, as before. *)
Theorem run_writes_only_outputs (selected_model : profile) (url : string)
    (data_folder : list (string * file)) (w : world server) (k : string) :
  (∀ entry, entry ∈ data_folder → endswith ".json" entry.1 = true →
            output_filename entry.1 (file_suffix selected_model) ≠ k) →
  out_files (main_loop py_repr post selected_model url data_folder w) !! k
  = out_files w !! k.
Proof.
  unfold main_loop. revert w.
  induction data_folder as [|entry files IH]; intros w Hk; [done|].
  assert (∀ e, e ∈ files → endswith ".json" e.1 = true →
               output_filename e.1 (file_suffix selected_model) ≠ k) as Hk'.
  { intros e He. apply Hk. by right. }
  destruct (endswith ".json" entry.1) eqn:E.
  - rewrite filter_cons_True by (by rewrite E). simpl.
    rewrite IH by done. apply process_file_frame.
    intros Heq. by apply (Hk entry); [left| |].
  - rewrite filter_cons_False by (rewrite E; exact id). by apply IH.
Qed.

(** X11 (a run never changes an existing file).  Every file that is in
    the result folder before a run is there after it, with the same
    content. *)
Theorem run_preserves_existing (selected_model : profile) (url : string)
    (data_folder : list (string * file)) (w : world server) (k c : string) :
  out_files w !! k = Some c →
  out_files (main_loop py_repr post selected_model url data_folder w) !! k
  = Some c.
Proof.
  unfold main_loop.
  generalize (filter (λ entry : string * file, Is_true (endswith ".json" entry.1))
                data_folder).
  intros files. revert w.
  induction files as [|entry files IH]; intros w Hc; [done|].
  simpl. by apply IH, process_file_preserves.
Qed.

(** X12 (a complete translation).  A file without output whose segments
    are all translated, with non-empty texts [ts]: afterwards its output
    file holds exactly the blocks of [ts], the block of the text at
    position [k] (counted from 0) being the line [--- Page k+1 ---], the
    text and an empty line, and the calls made are one per segment, in
    order. *)
Theorem complete_translation (selected_model : profile) (url filename : string)
    (f : file) (w : world server) (segments ts : list string) (s1 : server) :
  out_files w !! output_filename filename (file_suffix selected_model) = None →
  extract_text_from_json py_repr f = segments →
  segments ≠ [] →
  translations post (base_model selected_model) url segments (srv w)
  = (Some <$> ts, s1) →
  Forall (fun t => t ≠ "") ts →
  process_file py_repr post selected_model url w (filename, f)
  = {| out_files :=
         <[output_filename filename (file_suffix selected_model) :=
             String.concat ""
               (imap (fun k t =>
                        "--- Page " ++ NilZero.string_of_uint (N.to_uint (N.of_nat (S k)))
                        ++ " ---
" ++ t ++ "

") ts)]>
           (out_files w);
       srv := s1;
       log := (log w ++ EvExtract filename
                 :: posts (base_model selected_model) url segments)%list |}.
Proof.
  intros Hnew Hsegs Hne Htr Hts.
  rewrite <- page_blocks_from_one.
  unfold process_file. simpl fst. simpl snd.
  rewrite Hnew, bool_decide_eq_false_2 by (by intros [? ?]).
  rewrite Hsegs. destruct segments as [|x l] eqn:E; [done|].
  rewrite <- E in *. clear E x l Hsegs Hne.
  rewrite <- (app_nil_r segments) at 1.
  erewrite translate_pages_successes; [| |exact Htr|exact Hts].
  2: { simpl. apply lookup_insert_eq. }
  simpl. rewrite insert_insert_eq. f_equal. by rewrite <- !app_assoc.
Qed.

(** X13 (the calls made for a file).  For a file without output, the
    events of its turn are its extraction followed by one call per
    segment, in the order of the segments, up to and including the first
    segment whose translation is [None]: no segment is retried, skipped or
    sent out of order. *)
Theorem calls_follow_segments (selected_model : profile) (url filename : string)
    (f : file) (w : world server) :
  out_files w !! output_filename filename (file_suffix selected_model) = None →
  log (process_file py_repr post selected_model url w (filename, f))
  = (log w ++ EvExtract filename
       :: posts (base_model selected_model) url
            (take (S (length (answered
                       (fst (translations post (base_model selected_model) url
                               (extract_text_from_json py_repr f) (srv w))))))
                  (extract_text_from_json py_repr f)))%list.
Proof.
  intros Hnew. unfold process_file. simpl fst. simpl snd.
  rewrite Hnew, bool_decide_eq_false_2 by (by intros [? ?]).
  destruct (extract_text_from_json py_repr f) as [|x l] eqn:E; [done|].
  rewrite translate_pages_log. simpl log. simpl srv. by rewrite <- app_assoc.
Qed.

(** X14 (files without text leave no trace).  A run over a data folder
    whose [.json] entries have no output yet and yield no segment, which
    is what an unreadable or malformed file does, creates no file and
    makes no call: it leaves the result folder and the endpoint as they
    were, and only puts on record that it read each such entry, in the
    order of the folder. *)
Theorem files_without_text (selected_model : profile) (url : string)
    (data_folder : list (string * file)) (w : world server) :
  (∀ entry, entry ∈ data_folder → endswith ".json" entry.1 = true →
     out_files w !! output_filename entry.1 (file_suffix selected_model) = None
     ∧ extract_text_from_json py_repr entry.2 = []) →
  main_loop py_repr post selected_model url data_folder w
  = {| out_files := out_files w; srv := srv w;
       log := (log w
               ++ map (fun entry => EvExtract entry.1)
                    (filter (fun entry => Is_true (endswith ".json" entry.1))
                       data_folder))%list |}.
Proof.
  unfold main_loop. revert w.
  induction data_folder as [|entry files IH]; intros w Hall.
  - simpl. rewrite app_nil_r. by destruct w.
  - destruct (endswith ".json" entry.1) eqn:E.
    + rewrite filter_cons_True by (by rewrite E). simpl.
      destruct (Hall entry) as [Hnew Hnone]; [by left|done|].
      assert (process_file py_repr post selected_model url w entry
              = {| out_files := out_files w; srv := srv w;
                   log := (log w ++ [EvExtract entry.1])%list |}) as ->.
      { unfold process_file.
        rewrite Hnew, bool_decide_eq_false_2 by (by intros [? ?]).
        by rewrite Hnone. }
      rewrite IH; [simpl; by rewrite <- app_assoc|].
      intros e He Hjson. apply Hall; [by right|done].
    + rewrite filter_cons_False by (rewrite E; exact id).
      apply IH. intros e He. apply Hall. by right.
Qed.





End driver.

(** ** Further properties of the output naming *)

Lemma str_app_length s t :
  String.length (s ++ t) = (String.length s + String.length t)%nat.
Proof. induction s as [|c s IH]; [done|]. rewrite str_app_cons. simpl. by rewrite IH. Qed.

Lemma startswith_length p : ∀ s,
  startswith p s = true → (String.length p ≤ String.length s)%nat.
Proof.
  induction p as [|a p IH]; intros s Hs; simpl; [lia|].
  destruct s as [|b s]; [done|]. simpl in Hs.
  apply andb_true_iff in Hs as [_ Hs]. apply IH in Hs. simpl. lia.
Qed.

Lemma endswith_app p : ∀ r, endswith p (r ++ p) = true.
Proof.
  induction r as [|c r IH].
  - rewrite str_app_nil_l. destruct p as [|a p]; [done|].
    cbn [endswith]. by rewrite String.eqb_refl.
  - rewrite str_app_cons. simpl. rewrite IH. by rewrite orb_true_r.
Qed.

Lemma endswith_json_txt : ∀ u, endswith ".json" (u ++ ".txt") = false.
Proof.
  induction u as [|c u IH]; [done|].
  rewrite str_app_cons.
  change (endswith ".json" (String c (u ++ ".txt")))
    with (String.eqb ".json" (String c (u ++ ".txt")) || endswith ".json" (u ++ ".txt")).
  rewrite IH, orb_false_r. apply String.eqb_neq. intros Heq.
  destruct u as [|d u].
  - rewrite str_app_nil_l in Heq. discriminate Heq.
  - apply (f_equal String.length) in Heq. rewrite str_app_cons in Heq.
    simpl in Heq. rewrite str_app_length in Heq. simpl in Heq. lia.
Qed.

(** Whatever [str.replace] does before it, the [.json] at the end of a
    name is replaced. *)
Lemma replace_json_ends new : ∀ pre k,
  (k ≤ String.length pre)%nat →
  ∃ r, replace_from ".json" new k (pre ++ ".json") = r ++ new.
Proof.
  induction pre as [|c pre IH]; intros k Hk.
  - simpl in Hk. assert (k = 0%nat) as -> by lia.
    exists "". rewrite !str_app_nil_l. simpl. by rewrite str_app_nil_r.
  - rewrite str_app_cons. destruct k as [|k].
    + change (replace_from ".json" new 0 (String c (pre ++ ".json")))
        with (if startswith ".json" (String c (pre ++ ".json"))
              then new ++ replace_from ".json" new 4 (pre ++ ".json")
              else String c (replace_from ".json" new 0 (pre ++ ".json"))).
      destruct (startswith ".json" (String c (pre ++ ".json"))) eqn:E.
      * rewrite <- str_app_cons in E. apply startswith_json_app in E; [|done].
        apply startswith_length in E. simpl in E.
        destruct (IH 4%nat) as [r ->]; [lia|].
        exists (new ++ r). by rewrite str_app_assoc.
      * destruct (IH 0%nat) as [r ->]; [lia|]. by exists (String c r).
    + simpl. apply IH. simpl in Hk. lia.
Qed.

(** X16 (the output name of a [.json] file).  For every file name ending
    in [.json], the files the driver picks, and every suffix, the output
    name ends in the suffix followed by [.txt], and it does not end in
    [.json]. *)
Theorem output_name_extension (filename suffix : string) :
  endswith ".json" filename = true →
  endswith (suffix ++ ".txt") (output_filename filename suffix) = true
  ∧ endswith ".json" (output_filename filename suffix) = false.
Proof.
  intros [pre ->]%endswith_inv. unfold output_filename, Text.replace.
  destruct (replace_json_ends (suffix ++ ".txt") pre 0) as [r ->]; [lia|].
  split; [apply endswith_app|].
  rewrite <- !str_app_assoc. apply endswith_json_txt.
Qed.

(** X17 (the output name of a plain file name).  A file name whose only
    [.json] is the one at its end, [stem ++ ".json"], is picked by the
    driver and gets the output name [stem ++ suffix ++ ".txt"]. *)
Theorem output_name_of_stem (stem suffix : string) :
  Text.contains ".json" stem = false →
  endswith ".json" (stem ++ ".json") = true
  ∧ output_filename (stem ++ ".json") suffix = stem ++ suffix ++ ".txt".
Proof.
  intros Hstem. split; [apply endswith_app|].
  by apply output_filename_of_stem.
Qed.

(** ** The menu *)

(** X18 (the selection is a key of the menu).  When the menu loop ends
    with a choice, the choice is a typed line without its surrounding
    white space, the test [choice in models] holds for it, and it failed
    for every line typed before. *)
Theorem selection_is_valid (models : json) (inputs : list string) (choice : string) :
  select_model models inputs = Selected choice →
  Py.contains choice models = Ok true
  ∧ ∃ before line after,
      inputs = (before ++ line :: after)%list
      ∧ choice = strip line
      ∧ Forall (fun l => Py.contains (strip l) models = Ok false) before.
Proof.
  induction inputs as [|line rest IH]; [done|]. simpl.
  destruct (Py.contains (strip line) models) as [[]|e] eqn:E; [| |done].
  - intros [= <-]. split; [done|]. by exists [], line, rest.
  - intros Hsel. destruct (IH Hsel) as (Hin & before & l & after & -> & -> & Hall).
    split; [done|]. exists (line :: before), l, after.
    split; [done|]. split; [done|]. by constructor.
Qed.

(** ** The remaining cases of the extractor *)

Section extractor_cases.

Variable py_repr : json -> string.

(** On pages that are no mappings the loop of the nested-document case
    collects nothing: it passes over the page or raises. *)
Lemma pages_loop_no_mapping items : ∀ text_segments,
  Forall (fun item => Py.is_dict item = false) items →
  pages_loop py_repr items text_segments = Ok text_segments
  ∨ ∃ e, pages_loop py_repr items text_segments = Raise e.
Proof.
  induction items as [|item items IH]; intros acc Hall; [by left|].
  apply Forall_cons in Hall as [Hitem Hall].
  destruct item as [| | | |s|l|?]; try discriminate Hitem; simpl;
    try (right; by eexists).
  - destruct (Text.contains "content" s); simpl; [right; by eexists|by apply IH].
  - destruct (existsb (Py.is_the_str "content") l); simpl;
      [right; by eexists|by apply IH].
Qed.

(** X19 (the pages of a nested document).  For
    [{"document": {"pages": [...]}}]: when every page is a mapping, the
    segments are the [content] values of the pages that have one, in
    order; when no page is a mapping, there is no segment at all, so a
    page given as a plain string is never extracted. *)
Theorem nested_document_pages (kvs dkvs : list (string * json)) (items : list json) :
  Py.dict_get "document" kvs = Some (JDict dkvs) →
  Py.dict_get "pages" dkvs = Some (JList items) →
  (Forall (fun item => Py.is_dict item = true) items →
   extract_text_from_json py_repr (Parsed (JDict kvs)) = page_contents py_repr items)
  ∧ (Forall (fun item => Py.is_dict item = false) items →
     extract_text_from_json py_repr (Parsed (JDict kvs)) = []).
Proof.
  intros Hdoc Hpages. split; intros Hall.
  - by apply nested_document_of_mappings with dkvs.
  - unfold extract_text_from_json, try_extract, extract_segments, is_nested_document.
    simpl. rewrite Hdoc. simpl. rewrite Hpages. simpl.
    destruct (pages_loop_no_mapping items [] Hall) as [-> |[e ->]]; [done|].
    by destruct e.
Qed.

Lemma content_segments_strings (ss : list string) :
  content_segments py_repr (JStr <$> ss) = ss.
Proof. induction ss as [|x ss IH]; [done|]. simpl. f_equal. apply IH. Qed.

Lemma py_str_strings (ss : list string) :
  map (py_str py_repr) (JStr <$> ss) = ss.
Proof. induction ss as [|x ss IH]; [done|]. simpl. f_equal. apply IH. Qed.

(** X20 (pages given as strings pass through).  A file that holds an
    array of strings, and a file that holds a mapping whose only key is
    [content] with an array of strings, both yield exactly these strings,
    in order: none is dropped, changed or split. *)
Theorem string_pages_pass_through (ss : list string) :
  extract_text_from_json py_repr (Parsed (JList (JStr <$> ss))) = ss
  ∧ extract_text_from_json py_repr
      (Parsed (JDict [("content", JList (JStr <$> ss))])) = ss.
Proof.
  split.
  - unfold extract_text_from_json, try_extract, extract_segments. simpl.
    apply py_str_strings.
  - unfold extract_text_from_json, try_extract, extract_segments,
      is_nested_document, is_content_list. simpl.
    rewrite content_loop_segments. simpl. apply content_segments_strings.
Qed.

End extractor_cases.

(** ** The further properties at concrete inputs *)

Lemma content_list_extraction_witness :
  extract_text_from_json opaque_repr
    (Parsed (JDict [("title", JStr "T");
                    ("content", JList [JDict [("content", JStr "Hallo")];
                                       JInt 5; JStr "Welt"])]))
  = content_segments opaque_repr
      [JDict [("content", JStr "Hallo")]; JInt 5; JStr "Welt"].
Proof.
  apply (content_list_extraction opaque_repr
           [("title", JStr "T");
            ("content", JList [JDict [("content", JStr "Hallo")];
                               JInt 5; JStr "Welt"])]
           [JDict [("content", JStr "Hallo")]; JInt 5; JStr "Welt"]);
    reflexivity.
Defined.

Lemma nested_document_scalar_page_witness :
  extract_text_from_json opaque_repr
    (Parsed (JDict [("document",
                     JDict [("pages", JList [JDict [("content", JStr "A")]; JNull])])]))
  = [].
Proof.
  apply (nested_document_scalar_page opaque_repr
           [("document",
             JDict [("pages", JList [JDict [("content", JStr "A")]; JNull])])]
           [("pages", JList [JDict [("content", JStr "A")]; JNull])]
           [JDict [("content", JStr "A")]; JNull]).
  - reflexivity.
  - reflexivity.
  - constructor 2. constructor 1. reflexivity.
Defined.


Lemma known_preambles_removed_witness :
  clean_response ("Here is the translation: " ++ "سلام دنیا") = "سلام دنیا"
  ∧ clean_response ("Translation: " ++ "سلام دنیا") = "سلام دنیا".
Proof.
  apply (known_preambles_removed "سلام دنیا").
  - discriminate.
  - vm_compute. reflexivity.
  - unfold already_clean, prefixes, suffixes. cbv [app].
    repeat (constructor; [vm_compute; reflexivity|]).
    constructor.
Defined.

(** A 200 answer whose [response] is the number 7. *)
Lemma translation_fails_exactly_witness :
  fst (translate_segment scripted_post "Hallo" "GTE" "http://e"
         [Reply 200 (Some (JDict [("response", JInt 7)]))])
  = None.
Proof.
  apply (proj2 (translation_fails_exactly (list http_reply) scripted_post
                  "Hallo" "GTE" "http://e"
                  [Reply 200 (Some (JDict [("response", JInt 7)]))])).
  simpl. right. exists (JInt 7). repeat split; reflexivity.
Defined.

Lemma translation_is_sanitized_witness :
  ∃ status kvs,
    fst (scripted_post [Reply 200 (Some (JDict [("response", JStr "Translation: Hello")]))]
           "http://e" (make_payload "Hallo" "GTE"))
    = Reply status (Some (JDict kvs))
    ∧ ¬ (400 ≤ status < 600)%Z
    ∧ "Hello" = match Py.dict_get "response" kvs with
                | Some (JStr r) => clean_response r
                | _ => ""
                end.
Proof.
  apply (translation_is_sanitized (list http_reply) scripted_post
           "Hallo" "GTE" "http://e"
           [Reply 200 (Some (JDict [("response", JStr "Translation: Hello")]))]
           "Hello").
  reflexivity.
Defined.

Lemma run_writes_only_outputs_witness :
  out_files
    (main_loop opaque_repr scripted_post (Profile "German to English" "GTE" "_en")
       "http://e" [("doc.json", Parsed (JList [JStr "eins"]))]
       (World {["notes.txt" := "keep"]}
          [Reply 200 (Some (JDict [("response", JStr "one")]))] []))
    !! "notes.txt"
  = out_files
      (World {["notes.txt" := "keep"]}
         [Reply 200 (Some (JDict [("response", JStr "one")]))] [])
      !! "notes.txt".
Proof.
  apply (run_writes_only_outputs opaque_repr (list http_reply) scripted_post
           (Profile "German to English" "GTE" "_en") "http://e"
           [("doc.json", Parsed (JList [JStr "eins"]))]
           (World {["notes.txt" := "keep"]}
              [Reply 200 (Some (JDict [("response", JStr "one")]))] [])
           "notes.txt").
  intros entry Hin _. apply list_elem_of_singleton in Hin. rewrite Hin.
  intros Heq. vm_compute in Heq. discriminate Heq.
Defined.

Lemma run_preserves_existing_witness :
  out_files
    (main_loop opaque_repr scripted_post (Profile "German to English" "GTE" "_en")
       "http://e"
       [("doc.json", Parsed (JList [JStr "eins"]));
        ("more.json", Parsed (JList [JStr "zwei"]))]
       (World {["doc_en.txt" := "old"]}
          [Reply 200 (Some (JDict [("response", JStr "two")]))] []))
    !! "doc_en.txt"
  = Some "old".
Proof.
  apply (run_preserves_existing opaque_repr (list http_reply) scripted_post
           (Profile "German to English" "GTE" "_en") "http://e"
           [("doc.json", Parsed (JList [JStr "eins"]));
            ("more.json", Parsed (JList [JStr "zwei"]))]
           (World {["doc_en.txt" := "old"]}
              [Reply 200 (Some (JDict [("response", JStr "two")]))] [])
           "doc_en.txt" "old").
  vm_compute. reflexivity.
Defined.

Lemma complete_translation_witness :
  process_file opaque_repr scripted_post (Profile "German to English" "GTE" "_en")
    "http://e"
    (World ∅ [Reply 200 (Some (JDict [("response", JStr "one")]));
              Reply 200 (Some (JDict [("response", JStr "two")]))] [])
    ("doc.json", Parsed (JList [JStr "eins"; JStr "zwei"]))
  = World (<["doc_en.txt" := "--- Page 1 ---
one

--- Page 2 ---
two

"]> ∅) []
      ([] ++ EvExtract "doc.json" :: posts "GTE" "http://e" ["eins"; "zwei"])%list.
Proof.
  apply (complete_translation opaque_repr (list http_reply) scripted_post
           (Profile "German to English" "GTE" "_en") "http://e" "doc.json"
           (Parsed (JList [JStr "eins"; JStr "zwei"]))
           (World ∅ [Reply 200 (Some (JDict [("response", JStr "one")]));
                     Reply 200 (Some (JDict [("response", JStr "two")]))] [])
           ["eins"; "zwei"] ["one"; "two"] []).
  - reflexivity.
  - reflexivity.
  - discriminate.
  - reflexivity.
  - repeat constructor; discriminate.
Defined.

(** The second of three segments fails: two calls, none for the third. *)
Lemma calls_follow_segments_witness :
  log
    (process_file opaque_repr scripted_post (Profile "German to English" "GTE" "_en")
       "http://e"
       (World ∅ [Reply 200 (Some (JDict [("response", JStr "one")]));
                 NoReply;
                 Reply 200 (Some (JDict [("response", JStr "three")]))] [])
       ("doc.json", Parsed (JList [JStr "eins"; JStr "zwei"; JStr "drei"])))
  = ([] ++ EvExtract "doc.json" :: posts "GTE" "http://e" ["eins"; "zwei"])%list.
Proof.
  apply (calls_follow_segments opaque_repr (list http_reply) scripted_post
           (Profile "German to English" "GTE" "_en") "http://e" "doc.json"
           (Parsed (JList [JStr "eins"; JStr "zwei"; JStr "drei"]))
           (World ∅ [Reply 200 (Some (JDict [("response", JStr "one")]));
                     NoReply;
                     Reply 200 (Some (JDict [("response", JStr "three")]))] [])).
  reflexivity.
Defined.

Lemma files_without_text_witness :
  main_loop opaque_repr scripted_post (Profile "German to English" "GTE" "_en")
    "http://e"
    [("bad.json", Malformed); ("notes.txt", Unreadable);
     ("empty.json", Parsed (JList []))]
    (World ∅ [Reply 200 (Some (JDict [("response", JStr "one")]))] [])
  = World ∅ [Reply 200 (Some (JDict [("response", JStr "one")]))]
      ([] ++ [EvExtract "bad.json"; EvExtract "empty.json"])%list.
Proof.
  apply (files_without_text opaque_repr (list http_reply) scripted_post
           (Profile "German to English" "GTE" "_en") "http://e"
           [("bad.json", Malformed); ("notes.txt", Unreadable);
            ("empty.json", Parsed (JList []))]
           (World ∅ [Reply 200 (Some (JDict [("response", JStr "one")]))] [])).
  intros entry Hin Hjson.
  apply elem_of_cons in Hin as [Hin|Hin]; [rewrite Hin; split; reflexivity|].
  apply elem_of_cons in Hin as [Hin|Hin]; [rewrite Hin in Hjson; discriminate Hjson|].
  apply list_elem_of_singleton in Hin. rewrite Hin; split; reflexivity.
Defined.

Lemma output_name_extension_witness :
  endswith ("_en" ++ ".txt") (output_filename "a.json.json" "_en") = true
  ∧ endswith ".json" (output_filename "a.json.json" "_en") = false.
Proof. apply (output_name_extension "a.json.json" "_en"). reflexivity. Defined.

Lemma output_name_of_stem_witness :
  endswith ".json" ("doc1" ++ ".json") = true
  ∧ output_filename ("doc1" ++ ".json") "_en" = "doc1" ++ "_en" ++ ".txt".
Proof. apply (output_name_of_stem "doc1" "_en"). reflexivity. Defined.

(** The operator types [3] and then [ 2 ]. *)
Lemma selection_is_valid_witness :
  Py.contains "2" (JDict [("1", JDict [("name", JStr "German to English")]);
                          ("2", JDict [("name", JStr "German to Urdu")])])
  = Ok true
  ∧ ∃ before line after,
      ["3"; " 2 "] = (before ++ line :: after)%list
      ∧ "2" = strip line
      ∧ Forall (fun l =>
                  Py.contains (strip l)
                    (JDict [("1", JDict [("name", JStr "German to English")]);
                            ("2", JDict [("name", JStr "German to Urdu")])])
                  = Ok false) before.
Proof.
  apply (selection_is_valid
           (JDict [("1", JDict [("name", JStr "German to English")]);
                   ("2", JDict [("name", JStr "German to Urdu")])])
           ["3"; " 2 "] "2").
  reflexivity.
Defined.

(** Pages given as plain strings: nothing is extracted. *)
Lemma nested_document_pages_witness :
  extract_text_from_json opaque_repr
    (Parsed (JDict [("document",
                     JDict [("pages", JList [JStr "Seite eins"; JStr "Seite zwei"])])]))
  = [].
Proof.
  refine (proj2 (nested_document_pages opaque_repr
                   [("document",
                     JDict [("pages", JList [JStr "Seite eins"; JStr "Seite zwei"])])]
                   [("pages", JList [JStr "Seite eins"; JStr "Seite zwei"])]
                   [JStr "Seite eins"; JStr "Seite zwei"] _ _) _).
  - reflexivity.
  - reflexivity.
  - repeat constructor.
Defined.
